(** * geo-arretes-doc: the document field aggregator of [parse_doc_direct.py]

    A shallow embedding of [extract_adresses_commune] and [parse_arrete]
    (src/process/parse_doc_direct.py), and the properties of the
    first-match, freeze and set-accumulation rules they implement.

    Python dictionaries with dynamic keys ([arretes]) are finite maps from
    key strings to values, so that "key absent" and "key present with value
    None" stay distinct; Python sets are finite sets; exceptions and the
    [logging]/[print] output are threaded through a small monad. *)

From Stdlib Require Import Ascii Sorted.
From stdpp Require Import base strings gmap list option.

Local Open Scope string_scope.
Local Open Scope list_scope.

(** ** Python values *)

(** A value that is [None] or a [str]. *)
Abbreviation pystr := (option string).

(** [bool(s)] for a [str]. *)
Definition nonempty (s : string) : bool :=
  match s with
  | EmptyString => false
  | String _ _ => true
  end.

(** [bool(v)] for a value that is [None] or a [str]. *)
Definition truthy (v : pystr) : bool :=
  match v with
  | None => false
  | Some s => nonempty s
  end.

(** [enumerate(l, start=n)]. *)
Fixpoint enumerate {A : Type} (n : nat) (l : list A) : list (nat * A) :=
  match l with
  | [] => []
  | x :: l' => (n, x) :: enumerate (S n) l'
  end.

(** ** Structured data *)

(** One decomposed address of a zone, as [get_adr_doc] returns it
    (dict with keys [adr_num], [adr_ind], ...). *)
Record adr_fields := {
  adr_num : pystr;
  adr_ind : pystr;
  adr_voie : pystr;
  adr_compl : pystr;
  adr_cpostal : pystr;
  adr_ville : pystr;
}.

(** One address zone: [{"adresse_brute": ..., "adresses": [...]}]. *)
Record adr_zone := {
  adresse_brute : string;
  zone_adresses : list adr_fields;
}.

(** An address of the document: the zone's raw text, the fields of the
    decomposed address without their [adr_] prefix, and the two keys that
    resolution adds ([adresse], [codeinsee]; [None] until they are set). *)
Record Adresse := {
  ad_brute : string;
  num : pystr;
  ind : pystr;
  voie : pystr;
  compl : pystr;
  cpostal : pystr;
  ville : pystr;
  adresse : pystr;
  codeinsee : pystr;
}.

(** A classified span and the content of one page, as [parse_arrete_pages]
    returns them. *)
Record span := {
  span_typ : string;
  span_txt : string;
}.

Record page_content := {
  body : string;
  content : list span;
}.

(** The row of the [notifies] table. *)
Record Notifie := {
  id_proprio : pystr;
  proprio : string;
  id_syndic : pystr;
  syndic : string;
  id_gest : pystr;
  gest : string;
  notifie_codeinsee : pystr;
}.

(** The row of the [parcelles] table. *)
Record Parcelle := {
  ref_cad : string;
  parcelle_codeinsee : pystr;
}.

(** The dictionary [parse_arrete] returns. *)
Record doc_data := {
  adresses : list Adresse;
  arretes : list (gmap string pystr);
  notifies : list Notifie;
  parcelles : list Parcelle;
}.

(** ** Effects: exceptions and the log *)

Inductive exn :=
  | AssertionError
  | OtherError (what : string).

(** The messages of the f-strings of the module, with their arguments. *)
Inductive message :=
  | MsgAucunePage (fp_txt_in : string)
  | MsgAccuse (fp_txt_in : string) (pages_ar : list nat) (nb_pages : nat)
  | MsgAucuneAdresse (fn_pdf : string) (adresse_brute : string)
  | MsgCommune (fn_pdf : string)
  | MsgGetCodeinsee (fn_pdf : string) (adr_ville adr_cpostal : pystr)
  | MsgAdresse (a : Adresse)
  | MsgCodeinsee (fn_pdf : string)
  | MsgCodePostal (fn_pdf : string) (adr_brute : string)
      (commune code_insee get_codepostal : pystr).

Inductive event :=
  | LogWarning (m : message)
  | LogError (m : message)
  | Print (m : message).

Inductive outcome (A : Type) :=
  | Returned (a : A)
  | Raised (e : exn).
Arguments Returned {A} a.
Arguments Raised {A} e.

(** A computation: what it logged, and how it ended. *)
Definition M (A : Type) : Type := list event * outcome A.

Definition ret {A} (a : A) : M A := ([], Returned a).
Definition raise {A} (e : exn) : M A := ([], Raised e).
Definition emit (ev : event) : M unit := ([ev], Returned tt).
Definition bind {A B} (c : M A) (k : A → M B) : M B :=
  match c with
  | (l, Returned a) => let '(l', r) := k a in (l ++ l', r)
  | (l, Raised e) => (l, Raised e)
  end.

Notation "'let!' x ':=' c 'in' k" := (bind c (fun x => k))
  (at level 10, x name, c at level 100, k at level 200).
Notation "'run' c 'in' k" := (bind c (fun _ => k))
  (at level 10, c at level 100, k at level 200).

(** [if b: c] for a statement without a value. *)
Definition when (b : bool) (c : M unit) : M unit :=
  if b then c else ret tt.

(** A [for] loop that builds a list. *)
Fixpoint mapM {A B} (f : A → M B) (l : list A) : M (list B) :=
  match l with
  | [] => ret []
  | x :: l' => let! y := f x in let! ys := mapM f l' in ret (y :: ys)
  end.

(** A [for] loop that updates a state. *)
Fixpoint foldM {A S} (f : S → A → M S) (s : S) (l : list A) : M S :=
  match l with
  | [] => ret s
  | x :: l' => let! s' := f s x in foldM f s' l'
  end.

(** ** The collaborators

    The functions [parse_doc_direct.py] imports from the other modules of
    the package and from the standard library. Detectors are functions of
    the page body; [get_codeinsee] and [create_adresse_normalisee] can
    raise. *)
Class Collaborators := {
  (* pathlib, src.utils.txt_format *)
  path_name : string → string;
  load_pages_text : string → list string;
  (* src.domain_knowledge.actes *)
  P_ACCUSE_match : string → bool;
  (* src.process.parse_doc *)
  parse_arrete_pages : string → list string → list page_content;
  (* src.utils *)
  process_date_brute : string → string;
  normalize_string : string → string;
  (* src.domain_knowledge.logement *)
  get_adr_doc : string → list adr_zone;
  get_proprio : string → pystr;
  get_syndic : string → pystr;
  get_gest : string → pystr;
  (* src.process.extract_data, src.domain_knowledge.codes_geo *)
  determine_commune : pystr → pystr → pystr;
  get_codeinsee : pystr → pystr → outcome pystr;
  get_codepostal : pystr → pystr → pystr;
  (* src.domain_knowledge.adresse *)
  create_adresse_normalisee :
    pystr → pystr → pystr → pystr → pystr → pystr → outcome string;
  (* src.domain_knowledge.typologie_securite *)
  get_classe : string → pystr;
  get_urgence : string → pystr;
  get_demo : string → pystr;
  get_int_hab : string → pystr;
  get_equ_com : string → pystr;
  (* src.domain_knowledge.cadastre *)
  get_parcelle : string → pystr;
  generate_refcadastrale_norm : pystr → string → string → pystr → string;
}.

Section ParseDocDirect.
Context `{Collaborators}.

(** ** [extract_adresses_commune] *)

(** [{"ad_brute": adresse_brute} | {k.replace("adr_", ""): v ...}] *)
Definition adresse_of_fields (adresse_brute : string) (x : adr_fields)
  : Adresse :=
  {| ad_brute := adresse_brute;
     num := adr_num x; ind := adr_ind x; voie := adr_voie x;
     compl := adr_compl x; cpostal := adr_cpostal x; ville := adr_ville x;
     adresse := None; codeinsee := None |}.

Definition set_ville (v : pystr) (a : Adresse) : Adresse :=
  {| ad_brute := ad_brute a; num := num a; ind := ind a; voie := voie a;
     compl := compl a; cpostal := cpostal a; ville := v;
     adresse := adresse a; codeinsee := codeinsee a |}.

Definition set_cpostal (v : pystr) (a : Adresse) : Adresse :=
  {| ad_brute := ad_brute a; num := num a; ind := ind a; voie := voie a;
     compl := compl a; cpostal := v; ville := ville a;
     adresse := adresse a; codeinsee := codeinsee a |}.

Definition set_adresse (v : pystr) (a : Adresse) : Adresse :=
  {| ad_brute := ad_brute a; num := num a; ind := ind a; voie := voie a;
     compl := compl a; cpostal := cpostal a; ville := ville a;
     adresse := v; codeinsee := codeinsee a |}.

Definition set_codeinsee (v : pystr) (a : Adresse) : Adresse :=
  {| ad_brute := ad_brute a; num := num a; ind := ind a; voie := voie a;
     compl := compl a; cpostal := cpostal a; ville := ville a;
     adresse := adresse a; codeinsee := v |}.

(** The call of [get_codeinsee] inside [try: ... except AssertionError:
    print(...); print(...); raise]. *)
Definition try_get_codeinsee (fn_pdf : string) (a : Adresse) : M pystr :=
  match get_codeinsee (ville a) (cpostal a) with
  | Returned c => ret c
  | Raised AssertionError =>
      run emit (Print (MsgGetCodeinsee fn_pdf (ville a) (cpostal a))) in
      run emit (Print (MsgAdresse a)) in
      raise AssertionError
  | Raised e => raise e
  end.

(** The lookup of the postal code when the address has none. *)
Definition fill_cpostal (fn_pdf : string) (ci : pystr) (a : Adresse)
  : M Adresse :=
  if truthy (cpostal a) then ret a
  else
    let a' := set_cpostal (get_codepostal (ville a) ci) a in
    run when (negb (truthy (cpostal a')))
          (emit (LogWarning
             (MsgCodePostal fn_pdf (ad_brute a') (ville a') ci (cpostal a'))))
    in ret a'.

(** The body of [for adresse in adresses]. *)
Definition resolve_adresse (fn_pdf : string) (commune_maire : pystr)
    (a0 : Adresse) : M Adresse :=
  let a1 := set_ville (determine_commune (ville a0) commune_maire) a0 in
  run when (negb (truthy (ville a1))) (emit (LogWarning (MsgCommune fn_pdf))) in
  let! ci := try_get_codeinsee fn_pdf a1 in
  run when (negb (truthy ci)) (emit (LogWarning (MsgCodeinsee fn_pdf))) in
  let! a2 := fill_cpostal fn_pdf ci a1 in
  match create_adresse_normalisee
          (num a2) (ind a2) (voie a2) (compl a2) (cpostal a2) (ville a2) with
  | Raised e => raise e
  | Returned s => ret (set_codeinsee ci (set_adresse (Some s) a2))
  end.

Definition extract_adresses_commune (fn_pdf pg_txt_body : string)
    (commune_maire : pystr) : M (list Adresse) :=
  match get_adr_doc pg_txt_body with
  | [] => ret []
  | adr0 :: _ =>
      let adresses :=
        adresse_of_fields (adresse_brute adr0) <$> zone_adresses adr0 in
      run when (bool_decide (adresses = []))
            (emit (LogError (MsgAucuneAdresse fn_pdf (adresse_brute adr0)))) in
      mapM (resolve_adresse fn_pdf commune_maire) adresses
  end.

(** ** [parse_arrete] *)

(** The local variables the page loop updates. *)
Record state := {
  st_adresses : list Adresse;
  st_arretes : gmap string pystr;
  st_proprios : gset string;
  st_syndics : gset string;
  st_gests : gset string;
  st_parcelles : gset string;
  st_codeinsee : pystr;
  st_cpostal : pystr;
}.

(** [pages_cont]: the spans of all pages, each with its page number. *)
Definition pages_cont_of (doc_content : list page_content)
  : list (nat * span) :=
  concat ((λ '(pg_num, pg_cont), (λ x, (pg_num, x)) <$> content pg_cont)
            <$> enumerate 1 doc_content).

(** [[x for x in pages_cont if x["span_typ"] == typ]] *)
Definition spans_of_type (typ : string) (pages_cont : list (nat * span))
  : list (nat * span) :=
  List.filter (λ x, String.eqb (span_typ x.2) typ) pages_cont.

(** The scalar fields of the order, set before the page loop. *)
Definition scalar_fields (pages_cont : list (nat * span))
  : gmap string pystr :=
  let arretes : gmap string pystr := ∅ in
  let arr_dates :=
    (λ x, process_date_brute (span_txt x.2))
      <$> spans_of_type "arr_date" pages_cont in
  let arretes :=
    match arr_dates with
    | d :: _ => <["date" := Some (normalize_string d)]> arretes
    | [] => arretes
    end in
  let arr_nums := (λ x, span_txt x.2) <$> spans_of_type "num_arr" pages_cont in
  let arretes :=
    match arr_nums with
    | n :: _ => <["num_arr" := Some (normalize_string n)]> arretes
    | [] => arretes
    end in
  let arr_noms := (λ x, span_txt x.2) <$> spans_of_type "nom_arr" pages_cont in
  match arr_noms with
  | n :: _ => <["nom_arr" := Some (normalize_string n)]> arretes
  | [] => arretes
  end.

(** The municipality of the authority: first [adr_ville] span, or [None]. *)
Definition commune_maire_of (pages_cont : list (nat * span)) : pystr :=
  match spans_of_type "adr_ville" pages_cont with
  | [] => None
  | x :: _ => Some (normalize_string (span_txt x.2))
  end.

(** [if k not in d: d[k] = v] *)
Definition set_if_absent (k : string) (v : pystr) (d : gmap string pystr)
  : gmap string pystr :=
  match d !! k with
  | Some _ => d
  | None => <[k := v]> d
  end.

(** [if v is not None: s.add(normalize_string(v))] *)
Definition add_notifie (v : pystr) (s : gset string) : gset string :=
  match v with
  | Some x => {[normalize_string x]} ∪ s
  | None => s
  end.

(** Lines 233-247: the addresses, tried while [adresses] is empty. *)
Definition step_adresses (fn_pdf pg_txt_body : string)
    (adr_commune_maire : pystr) (st : state) : M state :=
  match st_adresses st with
  | _ :: _ => ret st
  | [] =>
      let! pg_adresses :=
        extract_adresses_commune fn_pdf pg_txt_body adr_commune_maire in
      match pg_adresses with
      | [] => ret st
      | _ :: _ =>
          let adresses := st_adresses st ++ pg_adresses in
          ret {| st_adresses := adresses;
                 st_arretes := st_arretes st;
                 st_proprios := st_proprios st;
                 st_syndics := st_syndics st;
                 st_gests := st_gests st;
                 st_parcelles := st_parcelles st;
                 st_codeinsee := a ← head adresses; codeinsee a;
                 st_cpostal := a ← head adresses; cpostal a |}
      end
  end.

(** Lines 249-267: the fields of the order that are not set yet. *)
Definition step_arrete (fn_pdf fp_pdf_in pg_txt_body : string) (st : state)
  : state :=
  let arretes := st_arretes st in
  let arretes := set_if_absent "classe" (get_classe pg_txt_body) arretes in
  let arretes := set_if_absent "urgence" (get_urgence pg_txt_body) arretes in
  let arretes := set_if_absent "demo" (get_demo pg_txt_body) arretes in
  let arretes := set_if_absent "int_hab" (get_int_hab pg_txt_body) arretes in
  let arretes := set_if_absent "equ_com" (get_equ_com pg_txt_body) arretes in
  let arretes := set_if_absent "pdf" (Some fn_pdf) arretes in
  let arretes := set_if_absent "url" (Some fp_pdf_in) arretes in
  let arretes := set_if_absent "codeinsee" (st_codeinsee st) arretes in
  {| st_adresses := st_adresses st;
     st_arretes := arretes;
     st_proprios := st_proprios st;
     st_syndics := st_syndics st;
     st_gests := st_gests st;
     st_parcelles := st_parcelles st;
     st_codeinsee := st_codeinsee st;
     st_cpostal := st_cpostal st |}.

(** Lines 269-284: the notified parties. *)
Definition step_notifies (pg_txt_body : string) (st : state) : state :=
  {| st_adresses := st_adresses st;
     st_arretes := st_arretes st;
     st_proprios := add_notifie (get_proprio pg_txt_body) (st_proprios st);
     st_syndics := add_notifie (get_syndic pg_txt_body) (st_syndics st);
     st_gests := add_notifie (get_gest pg_txt_body) (st_gests st);
     st_parcelles := st_parcelles st;
     st_codeinsee := st_codeinsee st;
     st_cpostal := st_cpostal st |}.

(** Lines 286-294: the parcels. *)
Definition step_parcelles (fn_pdf pg_txt_body : string) (st : state)
  : state :=
  match get_parcelle pg_txt_body with
  | Some pg_parcelles_str =>
      if nonempty pg_parcelles_str then
        let refcads_norm :=
          [generate_refcadastrale_norm
             (st_codeinsee st) pg_parcelles_str fn_pdf (st_cpostal st)] in
        {| st_adresses := st_adresses st;
           st_arretes := st_arretes st;
           st_proprios := st_proprios st;
           st_syndics := st_syndics st;
           st_gests := st_gests st;
           st_parcelles := st_parcelles st ∪ list_to_set refcads_norm;
           st_codeinsee := st_codeinsee st;
           st_cpostal := st_cpostal st |}
      else st
  | None => st
  end.

(** The body of [for pg_txt_body in pages_body]. *)
Definition page_step (fn_pdf fp_pdf_in : string) (adr_commune_maire : pystr)
    (st : state) (pg_txt_body : string) : M state :=
  if nonempty pg_txt_body then
    let! st := step_adresses fn_pdf pg_txt_body adr_commune_maire st in
    let st := step_arrete fn_pdf fp_pdf_in pg_txt_body st in
    let st := step_notifies pg_txt_body st in
    ret (step_parcelles fn_pdf pg_txt_body st)
  else ret st.

Definition init_state (arretes : gmap string pystr) : state :=
  {| st_adresses := [];
     st_arretes := arretes;
     st_proprios := ∅;
     st_syndics := ∅;
     st_gests := ∅;
     st_parcelles := ∅;
     st_codeinsee := None;
     st_cpostal := None |}.

(** [{"pdf": fn_pdf, "url": fp_pdf_in}] *)
Definition minimal_arrete (fn_pdf fp_pdf_in : string) : gmap string pystr :=
  <["url" := Some fp_pdf_in]> (<["pdf" := Some fn_pdf]> ∅).

(** [list(s)[0] if s else None]. The iteration order of a Python set is
    not specified; the order of [elements] stands for it, and no theorem
    below depends on which element comes first. *)
Definition set_first (s : gset string) : pystr := head (elements s).

(** Lines 305-333: the fallback for [arretes] and the returned dictionary. *)
Definition finalize (fn_pdf fp_pdf_in : string) (st : state) : doc_data :=
  let arretes :=
    if decide (st_arretes st = ∅) then minimal_arrete fn_pdf fp_pdf_in
    else st_arretes st in
  {| adresses := st_adresses st;
     arretes := [arretes];
     notifies :=
       [ {| id_proprio := set_first (st_proprios st);
            proprio := "TODO_proprio";
            id_syndic := set_first (st_syndics st);
            syndic := "TODO_syndic";
            id_gest := set_first (st_gests st);
            gest := "TODO_gest";
            notifie_codeinsee := st_codeinsee st |} ];
     parcelles :=
       (λ x, {| ref_cad := x; parcelle_codeinsee := st_codeinsee st |})
         <$> elements (st_parcelles st) |}.

(** Lines 167-177: the acknowledgment pages and the filtered pages. *)
Definition pages_ar_of (pages : list string) : list nat :=
  fst <$> List.filter (λ ix, P_ACCUSE_match ix.2) (enumerate 1 pages).

Definition filt_pages_of (skip_pages : list nat) (pages : list string)
  : list string :=
  (λ ix, if bool_decide (ix.1 ∈ skip_pages) then "" else ix.2)
    <$> enumerate 1 pages.

(** Line 180: the classified pages of the document. *)
Definition doc_content_of (fn_pdf : string) (pages : list string)
  : list page_content :=
  let skip_pages := pages_ar_of pages in
  let filt_pages := filt_pages_of skip_pages pages in
  parse_arrete_pages fn_pdf filt_pages.

(** Lines 165-294 of [parse_arrete], up to the end of the page loop. *)
Definition parse_arrete_loop (fn_pdf fp_pdf_in fp_txt_in : string)
    (pages : list string) : M state :=
  let pages_ar := pages_ar_of pages in
  run when (negb (bool_decide (pages_ar = [])))
        (emit (LogWarning (MsgAccuse fp_txt_in pages_ar (length pages)))) in
  let doc_content := doc_content_of fn_pdf pages in
  let pages_body := body <$> doc_content in
  let pages_cont := pages_cont_of doc_content in
  let arretes := scalar_fields pages_cont in
  let adr_commune_maire := commune_maire_of pages_cont in
  foldM (page_step fn_pdf fp_pdf_in adr_commune_maire)
        (init_state arretes) pages_body.

Definition parse_arrete (fp_pdf_in fp_txt_in : string) : M doc_data :=
  let fn_pdf := path_name fp_pdf_in in
  let pages := load_pages_text fp_txt_in in
  if negb (existsb nonempty pages) then
    run emit (LogWarning (MsgAucunePage fp_txt_in)) in
    ret {| adresses := [];
           arretes := [minimal_arrete fn_pdf fp_pdf_in];
           notifies := [];
           parcelles := [] |}
  else
    let! st := parse_arrete_loop fn_pdf fp_pdf_in fp_txt_in pages in
    ret (finalize fn_pdf fp_pdf_in st).

(** The page bodies and the flat sequence of classified spans of the
    document stored in [fp_txt_in], as [parse_arrete] computes them. *)
Definition doc_pages_body (fp_pdf_in fp_txt_in : string) : list string :=
  body <$> doc_content_of (path_name fp_pdf_in) (load_pages_text fp_txt_in).

Definition doc_pages_cont (fp_pdf_in fp_txt_in : string)
  : list (nat * span) :=
  pages_cont_of
    (doc_content_of (path_name fp_pdf_in) (load_pages_text fp_txt_in)).

(** The page loop of the document stored in [fp_txt_in]. *)
Definition doc_run (fp_pdf_in fp_txt_in : string) : M state :=
  foldM (page_step (path_name fp_pdf_in) fp_pdf_in
           (commune_maire_of (doc_pages_cont fp_pdf_in fp_txt_in)))
        (init_state (scalar_fields (doc_pages_cont fp_pdf_in fp_txt_in)))
        (doc_pages_body fp_pdf_in fp_txt_in).

(** The first occurrence of a span type in the flat sequence of classified
    spans, as the specification words it: the text of the first triple of
    that type, if there is one. *)
Fixpoint first_span_txt (typ : string) (pages_cont : list (nat * span))
  : option string :=
  match pages_cont with
  | [] => None
  | x :: rest =>
      if String.eqb (span_typ x.2) typ then Some (span_txt x.2)
      else first_span_txt typ rest
  end.

(** No span of one of the three scalar types in the sequence. *)
Definition no_scalar_span (pages_cont : list (nat * span)) : Prop :=
  Forall (λ x, span_typ x.2 ≠ "arr_date" ∧ span_typ x.2 ≠ "num_arr"
               ∧ span_typ x.2 ≠ "nom_arr") pages_cont.

(** The number of entries of a set that are equal to [x]. *)
Definition entries (x : string) (s : gset string) : nat :=
  length (filter (λ y, y = x) (elements s)).

(** The keys a page with text makes sure [arretes] has. *)
Definition page_keys : gset string :=
  list_to_set
    [ "classe"; "urgence"; "demo"; "int_hab"; "equ_com"; "pdf"; "url";
      "codeinsee" ].

(** The normalized detections of one notified-party detector over the
    pages with text, in page order. *)
Definition detections (get : string → pystr) (bodies : list string)
  : list string :=
  omap (λ b, if nonempty b then normalize_string <$> get b else None) bodies.

(** The document-level codes are those of the first address, if any. *)
Definition codes_of_first_adresse (st : state) : Prop :=
  st_codeinsee st = (a ← head (st_adresses st); codeinsee a)
  ∧ st_cpostal st = (a ← head (st_adresses st); cpostal a).

(** The three accumulators of notified parties, each with its detector. *)
Definition accumulators : list ((string → pystr) * (state → gset string)) :=
  [ (get_proprio, st_proprios); (get_syndic, st_syndics);
    (get_gest, st_gests) ].

(** The page gives no address: it has no address zone, or its first zone
    expands to no address. *)
Definition no_adresse_on (pg_txt_body : string) : Prop :=
  match get_adr_doc pg_txt_body with
  | [] => True
  | adr0 :: _ => zone_adresses adr0 = []
  end.

(** The parcel reference a page with text adds, computed with the codes
    known at that time. *)
Definition page_parcelles (fn_pdf pg_txt_body : string)
    (codeinsee cpostal : pystr) : gset string :=
  match get_parcelle pg_txt_body with
  | Some s =>
      if nonempty s
      then {[ generate_refcadastrale_norm codeinsee s fn_pdf cpostal ]}
      else ∅
  | None => ∅
  end.

(** The address after the postal-code step of the resolution loop. *)
Definition with_cpostal (ci : pystr) (a : Adresse) : Adresse :=
  if truthy (cpostal a) then a
  else set_cpostal (get_codepostal (ville a) ci) a.

(** The resolution of [a0] reaches the call of
    [create_adresse_normalisee], and that call raises [e]. *)
Definition normalisation_fails (commune_maire : pystr) (a0 : Adresse)
    (e : exn) : Prop :=
  let a1 := set_ville (determine_commune (ville a0) commune_maire) a0 in
  ∃ ci, get_codeinsee (ville a1) (cpostal a1) = Returned ci
        ∧ let a2 := with_cpostal ci a1 in
          create_adresse_normalisee (num a2) (ind a2) (voie a2) (compl a2)
            (cpostal a2) (ville a2) = Raised e.

(** The warnings that go with the null fields of a resolved address are
    in the log. *)
Definition soft_misses_logged (fn_pdf : string) (log : list event)
    (a : Adresse) : Prop :=
  (truthy (ville a) = false → LogWarning (MsgCommune fn_pdf) ∈ log)
  ∧ (truthy (codeinsee a) = false → LogWarning (MsgCodeinsee fn_pdf) ∈ log).

(** What one page with text can add to [arretes]. *)
Definition arrete_page_fields (fn_pdf fp_pdf_in pg_txt_body : string)
    (codeinsee : pystr) : gmap string pystr :=
  list_to_map
    [ ("classe", get_classe pg_txt_body);
      ("urgence", get_urgence pg_txt_body);
      ("demo", get_demo pg_txt_body);
      ("int_hab", get_int_hab pg_txt_body);
      ("equ_com", get_equ_com pg_txt_body);
      ("pdf", Some fn_pdf);
      ("url", Some fp_pdf_in);
      ("codeinsee", codeinsee) ].

End ParseDocDirect.

(** ** A small world of collaborators, to run the model on documents *)

Module Toy.

Fixpoint table {A} (t : list (string * A)) (dflt : A) (k : string) : A :=
  match t with
  | [] => dflt
  | (k', v) :: t' => if String.eqb k k' then v else table t' dflt k
  end.

Definition str (v : pystr) : string := default "" v.

Definition marseille12 : adr_fields :=
  {| adr_num := Some "12"; adr_ind := None; adr_voie := Some "rue X";
     adr_compl := None; adr_cpostal := None; adr_ville := None |}.
Definition marseille14 : adr_fields :=
  {| adr_num := Some "14"; adr_ind := None; adr_voie := Some "rue X";
     adr_compl := None; adr_cpostal := Some "13001";
     adr_ville := Some "Marseille" |}.
Definition aubagne3 : adr_fields :=
  {| adr_num := Some "3"; adr_ind := Some "bis"; adr_voie := Some "cours Z";
     adr_compl := None; adr_cpostal := Some "13400";
     adr_ville := Some "Aubagne" |}.
Definition lyon5 : adr_fields :=
  {| adr_num := Some "5"; adr_ind := None; adr_voie := Some "quai Y";
     adr_compl := None; adr_cpostal := Some "69001";
     adr_ville := Some "Lyon" |}.
Definition inconnue7 : adr_fields :=
  {| adr_num := Some "7"; adr_ind := None; adr_voie := Some "impasse W";
     adr_compl := None; adr_cpostal := None; adr_ville := None |}.
Definition incoherente9 : adr_fields :=
  {| adr_num := Some "9"; adr_ind := None; adr_voie := Some "rue V";
     adr_compl := None; adr_cpostal := Some "99999";
     adr_ville := Some "Marseille" |}.

#[export] Instance toy : Collaborators := {|
  path_name fp :=
    match fp with
    | String "p"%char (String "d"%char (String "f"%char
        (String "/"%char fn))) => fn
    | _ => fp
    end;
  load_pages_text := table
    [ ("txt/vide.txt", [""; ""]);
      ("txt/arrete.txt", ["AR"; "entete"; "adresse"; "suite"]);
      ("txt/classe.txt", ["considerants"; "peril imminent"]);
      ("txt/sans_spans.txt", ["texte"]);
      ("txt/accuses.txt", ["AR"; "AR"]);
      ("txt/zones.txt", ["garde"; "zone vide"; "articles"; ""; "adresse"]);
      ("txt/lyon.txt", ["hors metropole"]);
      ("txt/inconnue.txt", ["sans commune"]);
      ("txt/incoherente.txt", ["considerants"; "incoherente"; "adresse"]) ]
    [];
  P_ACCUSE_match p := String.eqb p "AR";
  parse_arrete_pages _ pages :=
    (λ p, {| body := p;
             content := table
               [ ("entete",
                  [ {| span_typ := "adr_ville"; span_txt := "marseille" |};
                    {| span_typ := "num_arr"; span_txt := "2021-042" |};
                    {| span_typ := "arr_date"; span_txt := "1er mars 2021" |};
                    {| span_typ := "nom_arr"; span_txt := "peril rue X" |} ]);
                 ("suite",
                  [ {| span_typ := "arr_date"; span_txt := "2 mars 2021" |};
                    {| span_typ := "num_arr"; span_txt := "2021-043" |} ]) ]
               [] p |}) <$> pages;
  process_date_brute := table
    [ ("1er mars 2021", "01/03/2021"); ("2 mars 2021", "02/03/2021") ] "";
  normalize_string s := table
    [ ("marseille", "Marseille"); ("M. DUPONT", "M. Dupont");
      ("m. dupont", "M. Dupont") ] s s;
  get_adr_doc := table
    [ ("adresse",
       [ {| adresse_brute := "12 - 14 rue X 13001 Marseille";
            zone_adresses := [marseille12; marseille14] |};
         {| adresse_brute := "3 bis cours Z 13400 Aubagne";
            zone_adresses := [aubagne3] |} ]);
      ("suite",
       [ {| adresse_brute := "3 bis cours Z 13400 Aubagne";
            zone_adresses := [aubagne3] |} ]);
      ("zone vide",
       [ {| adresse_brute := "lieu-dit"; zone_adresses := [] |} ]);
      ("hors metropole",
       [ {| adresse_brute := "5 quai Y 69001 Lyon";
            zone_adresses := [lyon5] |} ]);
      ("sans commune",
       [ {| adresse_brute := "7 impasse W";
            zone_adresses := [inconnue7] |} ]);
      ("incoherente",
       [ {| adresse_brute := "9 rue V 99999 Marseille";
            zone_adresses := [incoherente9] |} ]) ]
    [];
  get_proprio := table
    [ ("entete", Some "M. DUPONT"); ("suite", Some "m. dupont") ] None;
  get_syndic := table [ ("adresse", Some "Foncia") ] None;
  get_gest := table [] None;
  determine_commune ville commune_maire :=
    if truthy ville then ville else commune_maire;
  get_codeinsee ville _ :=
    table
      [ ("Marseille", Returned (Some "13201"));
        ("Aubagne", Returned (Some "13005"));
        ("Lyon", Raised AssertionError) ]
      (Returned None) (str ville);
  get_codepostal _ codeinsee :=
    table [ ("13005", Some "13400") ] None (str codeinsee);
  create_adresse_normalisee num ind voie compl cpostal ville :=
    if String.eqb (str cpostal) "99999" then Raised (OtherError "ValueError")
    else Returned (str num +:+ str ind +:+ " " +:+ str voie +:+ " "
                   +:+ str cpostal +:+ " " +:+ str ville);
  get_classe := table [ ("peril imminent", Some "peril") ] None;
  get_urgence := table
    [ ("peril imminent", Some "oui"); ("adresse", Some "non") ] None;
  get_demo := table [ ("suite", Some "non") ] None;
  get_int_hab := table [ ("entete", Some "oui") ] None;
  get_equ_com := table [] None;
  get_parcelle := table
    [ ("entete", Some "205 A 12"); ("suite", Some "205 A 12");
      ("articles", Some "") ] None;
  generate_refcadastrale_norm codeinsee pg_parcelles_str _ _ :=
    default "?????" codeinsee +:+ " " +:+ pg_parcelles_str;
|}.

(** The results expected for the documents of this world. *)

Definition zone_marseille : adr_zone :=
  {| adresse_brute := "12 - 14 rue X 13001 Marseille";
     zone_adresses := [marseille12; marseille14] |}.

Definition adresse12 (ville codeinsee : pystr) (adresse : string) : Adresse :=
  {| ad_brute := "12 - 14 rue X 13001 Marseille";
     num := Some "12"; ind := None; voie := Some "rue X"; compl := None;
     cpostal := None; ville := ville; adresse := Some adresse;
     codeinsee := codeinsee |}.

Definition adresse14 : Adresse :=
  {| ad_brute := "12 - 14 rue X 13001 Marseille";
     num := Some "14"; ind := None; voie := Some "rue X"; compl := None;
     cpostal := Some "13001"; ville := Some "Marseille";
     adresse := Some "14 rue X 13001 Marseille";
     codeinsee := Some "13201" |}.

Definition adresse7 : Adresse :=
  {| ad_brute := "7 impasse W";
     num := Some "7"; ind := None; voie := Some "impasse W"; compl := None;
     cpostal := None; ville := None; adresse := Some "7 impasse W  ";
     codeinsee := None |}.

Definition notifie (id_proprio id_syndic codeinsee : pystr) : Notifie :=
  {| id_proprio := id_proprio; proprio := "TODO_proprio";
     id_syndic := id_syndic; syndic := "TODO_syndic";
     id_gest := None; gest := "TODO_gest";
     notifie_codeinsee := codeinsee |}.

(** An order record all of whose page fields are None. *)
Definition arrete_sans_mention : gmap string pystr :=
  list_to_map
    [ ("classe", None); ("urgence", None); ("demo", None);
      ("int_hab", None); ("equ_com", None); ("pdf", Some "a.pdf");
      ("url", Some "pdf/a.pdf"); ("codeinsee", None) ].

(** "txt/arrete.txt": an acknowledgment page, a heading page with the
    spans, the owner and a parcel, the page of the addresses, and a last
    page with a second date and number, the owner again and the parcel
    again. *)
Definition arrete_marseille : gmap string pystr :=
  list_to_map
    [ ("date", Some "01/03/2021"); ("num_arr", Some "2021-042");
      ("nom_arr", Some "peril rue X");
      ("classe", None); ("urgence", None); ("demo", None);
      ("int_hab", Some "oui"); ("equ_com", None); ("pdf", Some "a.pdf");
      ("url", Some "pdf/a.pdf"); ("codeinsee", None) ].

Definition log_marseille : list event :=
  [ LogWarning
      (MsgCodePostal "a.pdf" "12 - 14 rue X 13001 Marseille"
         (Some "Marseille") (Some "13201") None) ].

Definition state_marseille : state :=
  {| st_adresses :=
       [adresse12 (Some "Marseille") (Some "13201") "12 rue X  Marseille";
        adresse14];
     st_arretes := arrete_marseille;
     st_proprios := {[ "M. Dupont" ]};
     st_syndics := {[ "Foncia" ]};
     st_gests := ∅;
     st_parcelles := {[ "????? 205 A 12"; "13201 205 A 12" ]};
     st_codeinsee := Some "13201";
     st_cpostal := None |}.

Definition doc_marseille : doc_data :=
  {| adresses :=
       [adresse12 (Some "Marseille") (Some "13201") "12 rue X  Marseille";
        adresse14];
     arretes := [arrete_marseille];
     notifies := [notifie (Some "M. Dupont") (Some "Foncia") (Some "13201")];
     parcelles :=
       [ {| ref_cad := "????? 205 A 12";
            parcelle_codeinsee := Some "13201" |};
         {| ref_cad := "13201 205 A 12";
            parcelle_codeinsee := Some "13201" |} ] |}.

(** "txt/classe.txt" and "txt/sans_spans.txt": no span, no address. *)
Definition doc_sans_mention : doc_data :=
  {| adresses := [];
     arretes := [arrete_sans_mention];
     notifies := [notifie None None None];
     parcelles := [] |}.

(** "txt/accuses.txt": two acknowledgment pages and nothing else. *)
Definition doc_accuses : doc_data :=
  {| adresses := [];
     arretes := [ {[ "pdf" := Some "a.pdf"; "url" := Some "pdf/a.pdf" ]} ];
     notifies := [notifie None None None];
     parcelles := [] |}.

(** "txt/zones.txt": a zone without address on page 2, the zone of the
    two addresses on page 5, and no mention of the municipality. *)
Definition doc_zones : doc_data :=
  {| adresses := [adresse12 None None "12 rue X  "; adresse14];
     arretes := [arrete_sans_mention];
     notifies := [notifie None (Some "Foncia") None];
     parcelles := [] |}.

Definition log_zones : list event :=
  [ LogError (MsgAucuneAdresse "a.pdf" "lieu-dit");
    LogWarning (MsgCommune "a.pdf");
    LogWarning (MsgCodeinsee "a.pdf");
    LogWarning
      (MsgCodePostal "a.pdf" "12 - 14 rue X 13001 Marseille" None None
         None) ].

(** "txt/inconnue.txt": one address without municipality. *)
Definition doc_inconnue : doc_data :=
  {| adresses := [adresse7];
     arretes := [arrete_sans_mention];
     notifies := [notifie None None None];
     parcelles := [] |}.

Definition log_inconnue : list event :=
  [ LogWarning (MsgCommune "a.pdf");
    LogWarning (MsgCodeinsee "a.pdf");
    LogWarning (MsgCodePostal "a.pdf" "7 impasse W" None None None) ].

(** "txt/lyon.txt": what is printed before the AssertionError leaves. *)
Definition log_lyon : list event :=
  [ Print (MsgGetCodeinsee "a.pdf" (Some "Lyon") (Some "69001"));
    Print
      (MsgAdresse
         {| ad_brute := "5 quai Y 69001 Lyon";
            num := Some "5"; ind := None; voie := Some "quai Y";
            compl := None; cpostal := Some "69001"; ville := Some "Lyon";
            adresse := None; codeinsee := None |}) ].

End Toy.

(** * Definitions for the other properties of the module *)

Section Postconditions.
Context `{Collaborators}.

(** A page as the classifier receives it: blank when it is an
    acknowledgment of receipt, unchanged otherwise. *)
Definition blank_accuse (x : string) : string :=
  if P_ACCUSE_match x then "" else x.

(** The keys an order record can have. *)
Definition arrete_keys : gset string :=
  list_to_set [ "date"; "num_arr"; "nom_arr" ] ∪ page_keys.

(** What the resolution loop of [extract_adresses_commune] makes of one
    decomposed address [x] of a zone whose raw text is [zone_brute]. *)
Definition resolved_from (commune_maire : pystr) (zone_brute : string)
    (x : adr_fields) (a : Adresse) : Prop :=
  ad_brute a = zone_brute
  ∧ num a = adr_num x ∧ ind a = adr_ind x
  ∧ voie a = adr_voie x ∧ compl a = adr_compl x
  ∧ ville a = determine_commune (adr_ville x) commune_maire
  ∧ get_codeinsee (ville a) (adr_cpostal x) = Returned (codeinsee a)
  ∧ cpostal a = (if truthy (adr_cpostal x) then adr_cpostal x
                 else get_codepostal (ville a) (codeinsee a))
  ∧ ∃ s, create_adresse_normalisee (num a) (ind a) (voie a) (compl a)
           (cpostal a) (ville a) = Returned s
         ∧ adresse a = Some s.

(** What [resolve_adresse] logs before the exception of [get_codeinsee]
    leaves: the warning about the municipality if there is none, and the
    two printed lines if the exception is an AssertionError. *)
Definition codeinsee_failure_log (fn_pdf : string) (a1 : Adresse) (e : exn)
  : list event :=
  (if truthy (ville a1) then [] else [LogWarning (MsgCommune fn_pdf)])
  ++ match e with
     | AssertionError =>
         [ Print (MsgGetCodeinsee fn_pdf (ville a1) (cpostal a1));
           Print (MsgAdresse a1) ]
     | OtherError _ => []
     end.

(** Where a parcel reference of the document comes from: the parcel
    string [get_parcelle] finds on a page with text, normalized either
    without codes or with the codes of the first address [first]. *)
Definition parcelle_source (fn_pdf : string) (bodies : list string)
    (first : option Adresse) (r : string) : Prop :=
  ∃ b s, b ∈ bodies ∧ nonempty b = true
         ∧ get_parcelle b = Some s ∧ nonempty s = true
         ∧ (r = generate_refcadastrale_norm None s fn_pdf None
            ∨ ∃ a0, first = Some a0
                    ∧ r = generate_refcadastrale_norm
                            (codeinsee a0) s fn_pdf (cpostal a0)).

(** The two calls that can raise return for the decomposed address [x]
    of a zone: [get_codeinsee] on the municipality that was determined and
    the postal code as detected, and [create_adresse_normalisee] on the
    fields as they are after the postal-code step. *)
Definition resolution_returns (commune_maire : pystr) (zone_brute : string)
    (x : adr_fields) : Prop :=
  let a1 := set_ville (determine_commune (adr_ville x) commune_maire)
              (adresse_of_fields zone_brute x) in
  ∃ ci s,
    get_codeinsee (ville a1) (cpostal a1) = Returned ci
    ∧ let a2 := with_cpostal ci a1 in
      create_adresse_normalisee (num a2) (ind a2) (voie a2) (compl a2)
        (cpostal a2) (ville a2) = Returned s.

(** They return for every address of the first zone of the page. *)
Definition zone_returns (commune_maire : pystr) (pg_txt_body : string)
  : Prop :=
  match get_adr_doc pg_txt_body with
  | [] => True
  | adr0 :: _ =>
      Forall (resolution_returns commune_maire (adresse_brute adr0))
        (zone_adresses adr0)
  end.

(** They return for every address the page loop resolves for the
    document: the addresses of the first zone of each page with text, as
    long as the pages before gave no address. *)
Fixpoint lookups_return (commune_maire : pystr) (bodies : list string)
  : Prop :=
  match bodies with
  | [] => True
  | b :: rest =>
      if nonempty b then
        zone_returns commune_maire b
        ∧ (no_adresse_on b → lookups_return commune_maire rest)
      else lookups_return commune_maire rest
  end.

End Postconditions.

(** * [process_files] *)

(** The path and file-system operations of [process_files]. *)
Class FileSystem := {
  path_stem : string → string;
  path_join : string → string → string;
  is_file : string → bool;
}.

(** The character of a decimal digit. *)
Definition digit_char (d : nat) : ascii := ascii_of_nat (48 + d).

(** The decimal digits of [n], least significant first. *)
Fixpoint lsb_digits (fuel n : nat) : list nat :=
  match fuel with
  | 0 => []
  | S fuel' =>
      (n mod 10)%nat
      :: (if (n <? 10)%nat then [] else lsb_digits fuel' (n / 10)%nat)
  end.

(** [f"{i:04}"]: the decimal digits of [i], with zeros in front up to four
    characters. *)
Definition format_04 (i : nat) : string :=
  let digits := digit_char <$> reverse (lsb_digits (S i) i) in
  String.string_of_list_ascii (replicate (4 - length digits) "0"%char ++ digits).

(** [f"id_{i:04}"] *)
Definition idu_of (i : nat) : string := "id_" +:+ format_04 i.

(** The number a decimal string stands for, and the index an identifier
    was made from: what follows its first three characters, read as a
    number. *)
Definition digit_val (c : ascii) : nat := (nat_of_ascii c - 48)%nat.

Definition msb_val (cs : list ascii) : nat :=
  fold_left (λ acc c, (acc * 10 + digit_val c)%nat) cs 0%nat.

Definition idu_index (idu : string) : nat :=
  msb_val (drop 3 (String.list_ascii_of_string idu)).

(** A row of a table whose record is not a dictionary of the model:
    [{"idu": idu} | x | {"datemaj": datemaj}] for a record [x], none of
    whose fields is called [idu] or [datemaj]. *)
Record tagged (A : Type) := {
  idu : string;
  row : A;
  datemaj : string;
}.
Arguments idu {A} t.
Arguments row {A} t.
Arguments datemaj {A} t.

(** [{"idu": idu} | x | {"datemaj": datemaj}] for an order record: the
    keys of [x] win over [idu], and [datemaj] wins over the keys of [x]. *)
Definition tag_arrete (idu datemaj : string) (x : gmap string pystr)
  : gmap string pystr :=
  <["datemaj" := Some datemaj]> (x ∪ {[ "idu" := Some idu ]}).

(** The four lists of rows. *)
Record tables := {
  rows_adresse : list (tagged Adresse);
  rows_arrete : list (gmap string pystr);
  rows_notifie : list (tagged Notifie);
  rows_parcelle : list (tagged Parcelle);
}.

Section ProcessFiles.
Context `{Collaborators} `{FileSystem}.

(** Lines 391-403: the rows of one document are appended to the tables. *)
Definition add_rows (idu datemaj : string) (doc : doc_data) (t : tables)
  : tables :=
  let tag {A} (x : A) := {| idu := idu; row := x; datemaj := datemaj |} in
  {| rows_adresse := rows_adresse t ++ (tag <$> adresses doc);
     rows_arrete := rows_arrete t ++ (tag_arrete idu datemaj <$> arretes doc);
     rows_notifie := rows_notifie t ++ (tag <$> notifies doc);
     rows_parcelle := rows_parcelle t ++ (tag <$> parcelles doc) |}.

(** The native text file of a PDF file:
    [in_dir_ntxt / f"{fp_pdf.stem}.txt"]. *)
Definition fp_ntxt_of (in_dir_ntxt fp_pdf : string) : string :=
  path_join in_dir_ntxt (path_stem fp_pdf +:+ ".txt").

(** Lines 372-403: the body of [for i, fp_pdf in enumerate(fps_pdf)]. *)
Definition process_file (datemaj in_dir_ntxt : string) (t : tables)
    (ifp : nat * string) : M tables :=
  let idu := idu_of ifp.1 in
  let fp_ntxt := fp_ntxt_of in_dir_ntxt ifp.2 in
  let! fp_txt :=
    (if is_file fp_ntxt then ret fp_ntxt
     else raise (OtherError "ValueError")) in
  let! doc_data := parse_arrete ifp.2 fp_txt in
  ret (add_rows idu datemaj doc_data t).

(** Lines 366-403 of [process_files]: the four lists of rows, from the
    sorted list [fps_pdf] of the PDF files and the date of the run, up to
    the point where the rows are handed to pandas. *)
Definition process_files_rows (datemaj in_dir_ntxt : string)
    (fps_pdf : list string) : M tables :=
  foldM (process_file datemaj in_dir_ntxt)
    {| rows_adresse := []; rows_arrete := []; rows_notifie := [];
       rows_parcelle := [] |}
    (enumerate 0 fps_pdf).

(** The document [fp_pdf] has a native text file, and [parse_arrete]
    returns [doc] for it. *)
Definition parsed_as (in_dir_ntxt fp_pdf : string) (doc : doc_data) : Prop :=
  is_file (fp_ntxt_of in_dir_ntxt fp_pdf) = true
  ∧ ∃ l, parse_arrete fp_pdf (fp_ntxt_of in_dir_ntxt fp_pdf)
         = (l, Returned doc).

(** The rows that the lists [sel] of the numbered documents [docs]
    give, in the order of the documents, each row tagged by [tag] with the
    identifier of its document. *)
Definition rows_of {A B} (tag : string → A → B) (sel : doc_data → list A)
    (docs : list (nat * doc_data)) : list B :=
  concat ((λ id, tag (idu_of id.1) <$> sel id.2) <$> docs).

End ProcessFiles.

(** A file system for the documents of the small world. *)
Module ToyFiles.
Import Toy.

#[export] Instance files : FileSystem := {|
  path_stem := table
    [ ("pdf/arrete.pdf", "arrete"); ("pdf/vide.pdf", "vide");
      ("pdf/zones.pdf", "zones"); ("pdf/lyon.pdf", "lyon");
      ("pdf/absent.pdf", "absent") ] "";
  path_join dir name := dir +:+ "/" +:+ name;
  is_file := table
    [ ("txt/arrete.txt", true); ("txt/vide.txt", true);
      ("txt/zones.txt", true); ("txt/lyon.txt", true) ] false;
|}.

(** A world where the classifier finds the number of the order in the
    heading of the page and leaves no body text. *)
Definition spans_only : Collaborators := {|
  path_name := @path_name toy;
  load_pages_text := table [ ("txt/entete.txt", ["entete seule"]) ] [];
  P_ACCUSE_match := @P_ACCUSE_match toy;
  parse_arrete_pages _ pages :=
    (λ _, {| body := "";
             content :=
               [ {| span_typ := "num_arr"; span_txt := "2021-042" |} ] |})
      <$> pages;
  process_date_brute := @process_date_brute toy;
  normalize_string := @normalize_string toy;
  get_adr_doc := @get_adr_doc toy;
  get_proprio := @get_proprio toy;
  get_syndic := @get_syndic toy;
  get_gest := @get_gest toy;
  determine_commune := @determine_commune toy;
  get_codeinsee := @get_codeinsee toy;
  get_codepostal := @get_codepostal toy;
  create_adresse_normalisee := @create_adresse_normalisee toy;
  get_classe := @get_classe toy;
  get_urgence := @get_urgence toy;
  get_demo := @get_demo toy;
  get_int_hab := @get_int_hab toy;
  get_equ_com := @get_equ_com toy;
  get_parcelle := @get_parcelle toy;
  generate_refcadastrale_norm := @generate_refcadastrale_norm toy;
|}.

Definition doc_entete : doc_data :=
  {| adresses := [];
     arretes := [ {[ "num_arr" := Some "2021-042" ]} ];
     notifies := [notifie None None None];
     parcelles := [] |}.

(** The batch of "pdf/vide.pdf" and "pdf/zones.pdf", run on 03/11/2026. *)
Definition tag0311 {A} (idu : string) (x : A) : tagged A :=
  {| idu := idu; row := x; datemaj := "03/11/2026" |}.

Definition tables_vide_zones : tables :=
  {| rows_adresse :=
       [ tag0311 "id_0001" (adresse12 None None "12 rue X  ");
         tag0311 "id_0001" adresse14 ];
     rows_arrete :=
       [ list_to_map
           [ ("idu", Some "id_0000"); ("pdf", Some "vide.pdf");
             ("url", Some "pdf/vide.pdf"); ("datemaj", Some "03/11/2026") ];
         list_to_map
           [ ("idu", Some "id_0001");
             ("classe", None); ("urgence", None); ("demo", None);
             ("int_hab", None); ("equ_com", None);
             ("pdf", Some "zones.pdf"); ("url", Some "pdf/zones.pdf");
             ("codeinsee", None); ("datemaj", Some "03/11/2026") ] ];
     rows_notifie := [ tag0311 "id_0001" (notifie None (Some "Foncia") None) ];
     rows_parcelle := [] |}.

Definition log_vide_zones : list event :=
  [ LogWarning (MsgAucunePage "txt/vide.txt");
    LogError (MsgAucuneAdresse "zones.pdf" "lieu-dit");
    LogWarning (MsgCommune "zones.pdf");
    LogWarning (MsgCodeinsee "zones.pdf");
    LogWarning
      (MsgCodePostal "zones.pdf" "12 - 14 rue X 13001 Marseille" None None
         None) ].

End ToyFiles.

(** * Properties *)

Section Properties.
Context `{Collaborators}.

(** ** The monad *)

Lemma bind_Returned {A B} (c : M A) (k : A → M B) l b :
  bind c k = (l, Returned b) →
  ∃ l1 a l2, c = (l1, Returned a) ∧ k a = (l2, Returned b) ∧ l = l1 ++ l2.
Proof.
  destruct c as [l1 [a|e]]; simpl; [|done].
  destruct (k a) as [l2 r] eqn:Hk. intros [= <- ->]. eauto 10.
Qed.

Lemma bind_ret_l {A B} (a : A) (k : A → M B) : bind (ret a) k = k a.
Proof. unfold bind, ret. by destruct (k a). Qed.

Lemma foldM_app {A S} (f : S → A → M S) s xs ys :
  foldM f s (xs ++ ys) = bind (foldM f s xs) (λ s', foldM f s' ys).
Proof.
  revert s. induction xs as [|x xs IH]; intros s; simpl.
  - by destruct (foldM f s ys).
  - destruct (f s x) as [l [s1|e]]; simpl; [|done].
    rewrite IH. destruct (foldM f s1 xs) as [l1 [s2|e]]; simpl; [|done].
    destruct (foldM f s2 ys) as [l2 r]. by rewrite (assoc_L (++)).
Qed.

(** A loop that returns went through a returning step at each element. *)
Lemma foldM_cons_Returned {A S} (f : S → A → M S) s x xs l s' :
  foldM f s (x :: xs) = (l, Returned s') →
  ∃ l1 s1 l2, f s x = (l1, Returned s1)
              ∧ foldM f s1 xs = (l2, Returned s') ∧ l = l1 ++ l2.
Proof. simpl. apply bind_Returned. Qed.

Lemma foldM_app_Returned {A S} (f : S → A → M S) s xs ys l s' :
  foldM f s (xs ++ ys) = (l, Returned s') →
  ∃ l1 s1 l2, foldM f s xs = (l1, Returned s1)
              ∧ foldM f s1 ys = (l2, Returned s') ∧ l = l1 ++ l2.
Proof. rewrite foldM_app. apply bind_Returned. Qed.

(** Invariants of a returning loop. *)
Lemma foldM_invariant {A S} (f : S → A → M S) (P : S → Prop) xs :
  (∀ s x l s', x ∈ xs → P s → f s x = (l, Returned s') → P s') →
  ∀ s l s', P s → foldM f s xs = (l, Returned s') → P s'.
Proof.
  induction xs as [|x xs IH]; intros Hstep s l s' Hs Hrun.
  - by injection Hrun as _ <-.
  - apply foldM_cons_Returned in Hrun as (l1 & s1 & l2 & Hx & Hxs & _).
    eapply IH; [|by eapply (Hstep s x); [left|..]|done].
    intros ? y ? ? Hy. eapply Hstep. by right.
Qed.

(** ** The steps of the page loop *)

Lemma set_if_absent_lookup k v d k' :
  set_if_absent k v d !! k' =
    match d !! k' with
    | Some w => Some w
    | None => if decide (k = k') then Some v else None
    end.
Proof.
  unfold set_if_absent. destruct (d !! k) as [w|] eqn:Hk.
  - destruct (d !! k') eqn:Hk'; [done|]. case_decide; [congruence|done].
  - rewrite lookup_insert. case_decide; subst.
    + by rewrite Hk.
    + by destruct (d !! k').
Qed.

Lemma page_step_empty fn_pdf fp_pdf_in hint st b :
  nonempty b = false → page_step fn_pdf fp_pdf_in hint st b = ret st.
Proof. unfold page_step. by intros ->. Qed.

Lemma page_step_Returned fn_pdf fp_pdf_in hint st b l st' :
  nonempty b = true →
  page_step fn_pdf fp_pdf_in hint st b = (l, Returned st') →
  ∃ st1, step_adresses fn_pdf b hint st = (l, Returned st1)
         ∧ st' = step_parcelles fn_pdf b
                   (step_notifies b (step_arrete fn_pdf fp_pdf_in b st1)).
Proof.
  unfold page_step. intros -> Hrun.
  apply bind_Returned in Hrun as (l1 & st1 & l2 & Hadr & Hret & ->).
  injection Hret as <- <-. exists st1. by rewrite (right_id_L [] (++)).
Qed.

(** What [step_adresses] does when it returns: nothing once there are
    addresses or when the page gives none, and otherwise it stores the
    addresses of the page and the codes of the first one. *)
Lemma step_adresses_Returned fn_pdf b hint st l st1 :
  step_adresses fn_pdf b hint st = (l, Returned st1) →
  st_arretes st1 = st_arretes st
  ∧ st_proprios st1 = st_proprios st
  ∧ st_syndics st1 = st_syndics st
  ∧ st_gests st1 = st_gests st
  ∧ st_parcelles st1 = st_parcelles st
  ∧ ((st_adresses st ≠ [] ∧ l = [] ∧ st1 = st)
     ∨ (st_adresses st = []
        ∧ extract_adresses_commune fn_pdf b hint = (l, Returned [])
        ∧ st1 = st)
     ∨ (st_adresses st = []
        ∧ ∃ a rest,
            extract_adresses_commune fn_pdf b hint = (l, Returned (a :: rest))
            ∧ st_adresses st1 = a :: rest
            ∧ st_codeinsee st1 = codeinsee a
            ∧ st_cpostal st1 = cpostal a)).
Proof.
  unfold step_adresses. destruct (st_adresses st) as [|a0 rest0] eqn:Hadr.
  - intros Hrun.
    apply bind_Returned in Hrun as (l1 & pg & l2 & Hex & Hret & ->).
    destruct pg as [|a rest]; injection Hret as <- <-;
      rewrite (right_id_L [] (++)); simpl.
    + do 5 (split; [done|]). right; left. done.
    + do 5 (split; [done|]). right; right. split; [done|]. by exists a, rest.
  - intros [= <- <-]. do 5 (split; [done|]). by left.
Qed.

Lemma step_arrete_union fn_pdf fp_pdf_in b st :
  st_arretes (step_arrete fn_pdf fp_pdf_in b st) =
    st_arretes st ∪ arrete_page_fields fn_pdf fp_pdf_in b (st_codeinsee st).
Proof.
  apply map_eq. intros k. rewrite lookup_union. unfold step_arrete. simpl.
  rewrite !set_if_absent_lookup.
  destruct (st_arretes st !! k) as [w|]; simpl.
  { by destruct (arrete_page_fields _ _ _ _ !! k). }
  unfold arrete_page_fields. simpl. rewrite !lookup_insert, lookup_empty.
  repeat case_decide; done.
Qed.

Lemma step_notifies_arretes b st :
  st_arretes (step_notifies b st) = st_arretes st.
Proof. done. Qed.

Lemma step_parcelles_arretes fn_pdf b st :
  st_arretes (step_parcelles fn_pdf b st) = st_arretes st.
Proof.
  unfold step_parcelles. destruct (get_parcelle b) as [s|]; [|done].
  by destruct (nonempty s).
Qed.

Lemma step_parcelles_codes fn_pdf b st :
  st_adresses (step_parcelles fn_pdf b st) = st_adresses st
  ∧ st_codeinsee (step_parcelles fn_pdf b st) = st_codeinsee st
  ∧ st_cpostal (step_parcelles fn_pdf b st) = st_cpostal st.
Proof.
  unfold step_parcelles. destruct (get_parcelle b) as [s|]; [|done].
  by destruct (nonempty s).
Qed.

(** A page with text adds to [arretes] exactly the keys that are not there
    yet; the [codeinsee] it may add is the one known after the page's
    address step. *)
Lemma page_step_arretes fn_pdf fp_pdf_in hint st b l st' :
  nonempty b = true →
  page_step fn_pdf fp_pdf_in hint st b = (l, Returned st') →
  ∃ ci, st_arretes st' =
          st_arretes st ∪ arrete_page_fields fn_pdf fp_pdf_in b ci.
Proof.
  intros Hb Hrun.
  apply page_step_Returned in Hrun as (st1 & Hadr & ->); [|done].
  apply step_adresses_Returned in Hadr as (Harr & _).
  exists (st_codeinsee st1).
  by rewrite step_parcelles_arretes, step_notifies_arretes,
    step_arrete_union, Harr.
Qed.

(** A key of [arretes] never changes once it is set. *)
Lemma page_step_arretes_mono fn_pdf fp_pdf_in hint st b l st' k v :
  page_step fn_pdf fp_pdf_in hint st b = (l, Returned st') →
  st_arretes st !! k = Some v → st_arretes st' !! k = Some v.
Proof.
  intros Hrun Hk. destruct (nonempty b) eqn:Hb.
  - eapply page_step_arretes in Hrun as [ci ->]; [|done].
    by apply lookup_union_Some_l.
  - rewrite page_step_empty in Hrun by done. by injection Hrun as _ <-.
Qed.

Lemma run_arretes_mono fn_pdf fp_pdf_in hint bodies st l st' k v :
  foldM (page_step fn_pdf fp_pdf_in hint) st bodies = (l, Returned st') →
  st_arretes st !! k = Some v → st_arretes st' !! k = Some v.
Proof.
  intros Hrun Hk.
  eapply (foldM_invariant _ (λ s, st_arretes s !! k = Some v));
    [|exact Hk|exact Hrun].
  intros s x l0 s0 _ Hs Hstep. by eapply page_step_arretes_mono.
Qed.

(** Pages without text leave the state as it is and log nothing. *)
Lemma run_empty_pages fn_pdf fp_pdf_in hint bodies st :
  Forall (λ b, nonempty b = false) bodies →
  foldM (page_step fn_pdf fp_pdf_in hint) st bodies = ret st.
Proof.
  induction 1 as [|b bodies Hb _ IH]; [done|]. simpl.
  by rewrite page_step_empty, bind_ret_l.
Qed.

(** ** The function as a whole *)

Lemma parse_arrete_text fp_pdf_in fp_txt_in :
  existsb nonempty (load_pages_text fp_txt_in) = true →
  parse_arrete fp_pdf_in fp_txt_in =
    let pages := load_pages_text fp_txt_in in
    let! st :=
      (run when (negb (bool_decide (pages_ar_of pages = [])))
             (emit (LogWarning
                (MsgAccuse fp_txt_in (pages_ar_of pages) (length pages))))
       in doc_run fp_pdf_in fp_txt_in)
    in ret (finalize (path_name fp_pdf_in) fp_pdf_in st).
Proof. unfold parse_arrete. by intros ->. Qed.

(** With some text in the document, [parse_arrete] returns exactly when the
    page loop does, and then returns the finalized state. *)
Lemma parse_arrete_Returned fp_pdf_in fp_txt_in log d :
  existsb nonempty (load_pages_text fp_txt_in) = true →
  parse_arrete fp_pdf_in fp_txt_in = (log, Returned d) →
  ∃ l0 l1 st,
    doc_run fp_pdf_in fp_txt_in = (l1, Returned st)
    ∧ d = finalize (path_name fp_pdf_in) fp_pdf_in st
    ∧ log = l0 ++ l1.
Proof.
  intros Htext. rewrite parse_arrete_text by done. simpl. intros Hrun.
  apply bind_Returned in Hrun as (l & st & l' & Hloop & Hret & ->).
  injection Hret as <- <-.
  apply bind_Returned in Hloop as (l0 & [] & l1 & _ & Hloop & ->).
  exists l0, l1, st. by rewrite (right_id_L [] (++)).
Qed.

Lemma parse_arrete_of_run fp_pdf_in fp_txt_in l1 r :
  existsb nonempty (load_pages_text fp_txt_in) = true →
  doc_run fp_pdf_in fp_txt_in = (l1, r) →
  ∃ l0, parse_arrete fp_pdf_in fp_txt_in =
          (l0 ++ l1,
           match r with
           | Returned st =>
               Returned (finalize (path_name fp_pdf_in) fp_pdf_in st)
           | Raised e => Raised e
           end).
Proof.
  intros Htext Hrun. rewrite parse_arrete_text by done. simpl.
  rewrite Hrun.
  destruct (negb _); simpl; destruct r; simpl;
    rewrite ?(right_id_L [] (++));
    first [by eexists [_] | by exists []].
Qed.

(** ** The scalar fields *)

(** The scalar fields only ever hold the keys [date], [num_arr] and
    [nom_arr]. *)
Lemma scalar_fields_lookup_other pages_cont k :
  k ≠ "date" → k ≠ "num_arr" → k ≠ "nom_arr" →
  scalar_fields pages_cont !! k = None.
Proof.
  intros Hdate Hnum Hnom. unfold scalar_fields.
  repeat match goal with
         | |- context [match ?l with [] => _ | _ :: _ => _ end] =>
             destruct l
         end;
    rewrite ?lookup_insert_ne by done; apply lookup_empty.
Qed.

Lemma spans_of_type_none typ pages_cont :
  Forall (λ x, span_typ x.2 ≠ typ) pages_cont →
  spans_of_type typ pages_cont = [].
Proof.
  induction 1 as [|x l Hx _ IH]; [done|]. unfold spans_of_type. simpl.
  apply String.eqb_neq in Hx. by rewrite Hx.
Qed.

Lemma scalar_fields_none pages_cont :
  no_scalar_span pages_cont → scalar_fields pages_cont = ∅.
Proof.
  intros Hno. unfold scalar_fields.
  rewrite !spans_of_type_none; [done|..];
    (eapply Forall_impl; [|exact Hno]); by intros x (? & ? & ?).
Qed.

(** ** The fallback of the finalization *)

Lemma minimal_arrete_eq fn_pdf fp_pdf_in :
  minimal_arrete fn_pdf fp_pdf_in =
    {[ "pdf" := Some fn_pdf; "url" := Some fp_pdf_in ]}.
Proof.
  unfold minimal_arrete. rewrite insert_insert_ne by done.
  by rewrite insert_empty.
Qed.

Lemma finalize_arretes_set fn_pdf fp_pdf_in st k v :
  st_arretes st !! k = Some v →
  arretes (finalize fn_pdf fp_pdf_in st) = [st_arretes st].
Proof.
  intros Hk. unfold finalize. simpl. case_decide as Hemp; [|done].
  by rewrite Hemp, lookup_empty in Hk.
Qed.

Lemma finalize_arretes_empty fn_pdf fp_pdf_in st :
  st_arretes st = ∅ →
  arretes (finalize fn_pdf fp_pdf_in st) =
    [ {[ "pdf" := Some fn_pdf; "url" := Some fp_pdf_in ]} ].
Proof.
  intros Hemp. unfold finalize. simpl. rewrite decide_True by done.
  by rewrite minimal_arrete_eq.
Qed.

(** The first page with text decides the page fields of [arretes]. *)
Lemma run_first_text_page fn_pdf fp_pdf_in hint arretes0 pre b post l st :
  Forall (λ p, nonempty p = false) pre →
  nonempty b = true →
  foldM (page_step fn_pdf fp_pdf_in hint) (init_state arretes0)
        (pre ++ b :: post) = (l, Returned st) →
  ∃ ci st1 l1,
    st_arretes st1 = arretes0 ∪ arrete_page_fields fn_pdf fp_pdf_in b ci
    ∧ foldM (page_step fn_pdf fp_pdf_in hint) st1 post = (l1, Returned st).
Proof.
  intros Hpre Hb Hrun.
  apply foldM_app_Returned in Hrun as (l0 & s0 & l1 & Hrun0 & Hrun & ->).
  rewrite run_empty_pages in Hrun0 by done. injection Hrun0 as <- <-.
  apply foldM_cons_Returned in Hrun as (l2 & st1 & l3 & Hstep & Hrun & ->).
  apply page_step_arretes in Hstep as [ci Hci]; [|done].
  by exists ci, st1, l3.
Qed.

Lemma first_text_page (bodies : list string) :
  Exists (λ b, nonempty b = true) bodies →
  ∃ pre b post, bodies = pre ++ b :: post
                ∧ Forall (λ p, nonempty p = false) pre ∧ nonempty b = true.
Proof.
  induction 1 as [b bodies Hb|b bodies _ (pre & b' & post & -> & Hpre & Hb')].
  - by exists [], b, bodies.
  - destruct (nonempty b) eqn:Hb.
    + by exists [], b, (pre ++ b' :: post).
    + exists (b :: pre), b', post. by repeat constructor.
Qed.

Lemma arrete_page_fields_dom fn_pdf fp_pdf_in b ci :
  dom (arrete_page_fields fn_pdf fp_pdf_in b ci) = page_keys.
Proof. unfold arrete_page_fields. by rewrite dom_list_to_map_L. Qed.

(** Once a page with text has been seen, the keys of [arretes] are fixed. *)
Lemma run_arretes_dom fn_pdf fp_pdf_in hint bodies st l st' :
  page_keys ⊆ dom (st_arretes st) →
  foldM (page_step fn_pdf fp_pdf_in hint) st bodies = (l, Returned st') →
  dom (st_arretes st') = dom (st_arretes st).
Proof.
  intros Hkeys Hrun.
  eapply (foldM_invariant _
            (λ s, dom (st_arretes s) = dom (st_arretes st)));
    [|reflexivity|exact Hrun].
  intros s b l0 s0 _ Hs Hstep. destruct (nonempty b) eqn:Hb.
  - eapply page_step_arretes in Hstep as [ci ->]; [|done].
    rewrite dom_union_L, arrete_page_fields_dom, Hs. set_solver.
  - rewrite page_step_empty in Hstep by done. by injection Hstep as _ <-.
Qed.

(** ** C4 *)

(** C4: when every page of the document has empty text, [parse_arrete]
    returns without raising, after one warning, a dictionary whose only
    order record holds exactly the keys [pdf] (the file name) and [url]
    (the source reference), and whose addresses, notified parties and
    parcels are empty. *)
Theorem parse_arrete_no_text fp_pdf_in fp_txt_in :
  Forall (λ p, p = "") (load_pages_text fp_txt_in) →
  parse_arrete fp_pdf_in fp_txt_in =
    ([LogWarning (MsgAucunePage fp_txt_in)],
     Returned
       {| adresses := [];
          arretes :=
            [ {[ "pdf" := Some (path_name fp_pdf_in);
                 "url" := Some fp_pdf_in ]} ];
          notifies := [];
          parcelles := [] |}).
Proof.
  intros Hpages. unfold parse_arrete.
  assert (existsb nonempty (load_pages_text fp_txt_in) = false) as ->.
  { induction Hpages as [|p l -> _ IH]; [done|]. simpl. exact IH. }
  simpl. by rewrite minimal_arrete_eq.
Qed.

(** ** C1 *)

(** C1 (as amended): for each field of the classification family, the
    value kept for the document is the detector's result on the first page
    whose body is not empty, whether that result is empty or not; the
    detections of later pages never replace it. *)
Theorem classe_family_frozen_by_first_text_page
    fp_pdf_in fp_txt_in log d pre b post :
  existsb nonempty (load_pages_text fp_txt_in) = true →
  parse_arrete fp_pdf_in fp_txt_in = (log, Returned d) →
  doc_pages_body fp_pdf_in fp_txt_in = pre ++ b :: post →
  Forall (λ p, nonempty p = false) pre →
  nonempty b = true →
  ∃ a, arretes d = [a]
       ∧ a !! "classe" = Some (get_classe b)
       ∧ a !! "urgence" = Some (get_urgence b)
       ∧ a !! "demo" = Some (get_demo b)
       ∧ a !! "int_hab" = Some (get_int_hab b)
       ∧ a !! "equ_com" = Some (get_equ_com b).
Proof.
  intros Htext Hret Hbodies Hpre Hb.
  apply parse_arrete_Returned in Hret as (l0 & l1 & st & Hrun & -> & _);
    [|done].
  unfold doc_run in Hrun. rewrite Hbodies in Hrun.
  apply run_first_text_page in Hrun as (ci & st1 & l2 & Harr & Hrun);
    [|done..].
  assert (∀ k v, k ≠ "date" → k ≠ "num_arr" → k ≠ "nom_arr" →
            arrete_page_fields (path_name fp_pdf_in) fp_pdf_in b ci !! k
              = Some v →
            st_arretes st !! k = Some v) as Hkeep.
  { intros k v ? ? ? Hk. eapply run_arretes_mono; [exact Hrun|].
    rewrite Harr. apply lookup_union_Some_raw. right.
    by rewrite scalar_fields_lookup_other. }
  exists (st_arretes st). split.
  { eapply (finalize_arretes_set _ _ _ "classe"). by apply Hkeep. }
  repeat split; by apply Hkeep.
Qed.

(** ** C3 *)

(** C3 (as amended): for every document in which no scalar order field
    was populated, the returned order record carries only the file name and
    the source reference when, in addition, no page or no classified page
    body has any text; when some classified page body has text, the record
    carries exactly the keys [classe], [urgence], [demo], [int_hab],
    [equ_com], [pdf], [url] and [codeinsee]. *)
Theorem arrete_without_scalar_fields fp_pdf_in fp_txt_in log d :
  parse_arrete fp_pdf_in fp_txt_in = (log, Returned d) →
  no_scalar_span (doc_pages_cont fp_pdf_in fp_txt_in) →
  ∃ a, arretes d = [a]
       ∧ (existsb nonempty (load_pages_text fp_txt_in) = false
          ∨ Forall (λ b, nonempty b = false)
              (doc_pages_body fp_pdf_in fp_txt_in) →
          a = {[ "pdf" := Some (path_name fp_pdf_in);
                 "url" := Some fp_pdf_in ]})
       ∧ (existsb nonempty (load_pages_text fp_txt_in) = true →
          Exists (λ b, nonempty b = true)
            (doc_pages_body fp_pdf_in fp_txt_in) →
          dom a = page_keys
          ∧ a !! "pdf" = Some (Some (path_name fp_pdf_in))
          ∧ a !! "url" = Some (Some fp_pdf_in)).
Proof.
  intros Hret Hno.
  destruct (existsb nonempty (load_pages_text fp_txt_in)) eqn:Htext.
  - apply parse_arrete_Returned in Hret as (l0 & l1 & st & Hrun & -> & _);
      [|done].
    unfold doc_run in Hrun. rewrite scalar_fields_none in Hrun by done.
    destruct (decide (Forall (λ b, nonempty b = false)
                        (doc_pages_body fp_pdf_in fp_txt_in)))
      as [Hall|Hsome].
    + rewrite run_empty_pages in Hrun by done. injection Hrun as _ <-.
      eexists. split; [by apply finalize_arretes_empty|]. split; [done|].
      intros _ Hex. apply Exists_exists in Hex as (b & Hin & Hb).
      rewrite Forall_forall in Hall. apply Hall in Hin. congruence.
    + apply not_Forall_Exists in Hsome; [|apply _].
      assert (Exists (λ b, nonempty b = true)
                (doc_pages_body fp_pdf_in fp_txt_in)) as Hex.
      { eapply Exists_impl; [|exact Hsome]. simpl. intros b.
        by destruct (nonempty b). }
      destruct (first_text_page _ Hex) as (pre & b & post & Hbodies & Hpre & Hb).
      rewrite Hbodies in Hrun.
      apply run_first_text_page in Hrun as (ci & st1 & l2 & Harr & Hrun);
        [|done..].
      rewrite (left_id_L ∅ (∪)) in Harr.
      assert (dom (st_arretes st1) = page_keys) as Hdom1
        by (by rewrite Harr, arrete_page_fields_dom).
      exists (st_arretes st).
      assert (∀ k v, arrete_page_fields (path_name fp_pdf_in) fp_pdf_in b ci
                       !! k = Some v →
                st_arretes st !! k = Some v) as Hkeep.
      { intros k v Hk. eapply run_arretes_mono; [exact Hrun|].
        by rewrite Harr. }
      split; [by eapply (finalize_arretes_set _ _ _ "pdf"), Hkeep|].
      split.
      { intros [?|Hall]; [done|]. rewrite Forall_forall in Hall.
        apply Exists_exists in Hex as (b' & Hin & Hb').
        apply Hall in Hin. congruence. }
      intros _ _. split; [|split; by apply Hkeep].
      erewrite run_arretes_dom; [exact Hdom1| |exact Hrun].
      by rewrite Hdom1.
  - unfold parse_arrete in Hret. rewrite Htext in Hret. simpl in Hret.
    injection Hret as _ <-. simpl. eexists. split; [done|].
    split; [|done]. intros _. apply minimal_arrete_eq.
Qed.

(** ** C6 *)

Lemma spans_of_type_first typ pages_cont :
  (λ x, span_txt x.2) <$> head (spans_of_type typ pages_cont)
  = first_span_txt typ pages_cont.
Proof.
  induction pages_cont as [|x rest IH]; [done|].
  unfold spans_of_type in *. simpl.
  by destruct (String.eqb (span_typ x.2) typ).
Qed.

(** The code's list comprehensions followed by [[0]] compute the first
    occurrence of each span type. *)
Lemma scalar_fields_first pages_cont :
  scalar_fields pages_cont !! "date"
    = (λ t, Some (normalize_string (process_date_brute t)))
        <$> first_span_txt "arr_date" pages_cont
  ∧ scalar_fields pages_cont !! "num_arr"
    = (λ t, Some (normalize_string t))
        <$> first_span_txt "num_arr" pages_cont
  ∧ scalar_fields pages_cont !! "nom_arr"
    = (λ t, Some (normalize_string t))
        <$> first_span_txt "nom_arr" pages_cont.
Proof.
  rewrite <- !spans_of_type_first. unfold scalar_fields.
  destruct (spans_of_type "arr_date" pages_cont) as [|x1 l1];
    destruct (spans_of_type "num_arr" pages_cont) as [|x2 l2];
    destruct (spans_of_type "nom_arr" pages_cont) as [|x3 l3];
    simpl; repeat split;
    rewrite ?lookup_insert_eq, ?lookup_insert_ne, ?lookup_empty by done;
    done.
Qed.

(** The page loop leaves alone every key that is not a page key. *)
Lemma run_arretes_other fn_pdf fp_pdf_in hint bodies st l st' k :
  k ∉ page_keys →
  foldM (page_step fn_pdf fp_pdf_in hint) st bodies = (l, Returned st') →
  st_arretes st' !! k = st_arretes st !! k.
Proof.
  intros Hk Hrun.
  eapply (foldM_invariant _ (λ s, st_arretes s !! k = st_arretes st !! k));
    [|reflexivity|exact Hrun].
  intros s b l0 s0 _ Hs Hstep. destruct (nonempty b) eqn:Hb.
  - eapply page_step_arretes in Hstep as [ci ->]; [|done].
    rewrite lookup_union_l; [done|]. apply not_elem_of_dom.
    by rewrite arrete_page_fields_dom.
  - rewrite page_step_empty in Hstep by done. by injection Hstep as _ <-.
Qed.

Lemma scalar_fields_of_document fp_pdf_in fp_txt_in log d :
  existsb nonempty (load_pages_text fp_txt_in) = true →
  parse_arrete fp_pdf_in fp_txt_in = (log, Returned d) →
  ∃ a, arretes d = [a]
       ∧ ∀ k, k ∈ ["date"; "num_arr"; "nom_arr"] →
              a !! k = scalar_fields (doc_pages_cont fp_pdf_in fp_txt_in) !! k.
Proof.
  intros Htext Hret.
  apply parse_arrete_Returned in Hret as (l0 & l1 & st & Hrun & -> & _);
    [|done].
  unfold finalize. simpl. eexists. split; [done|]. intros k Hk.
  assert (k ≠ "pdf" ∧ k ≠ "url" ∧ k ∉ page_keys) as (Hpdf & Hurl & Hpage).
  { set_unfold. unfold page_keys. set_unfold.
    destruct Hk as [->|[->|[->|[]]]]; repeat split; intros ?; naive_solver. }
  unfold doc_run in Hrun.
  eapply run_arretes_other in Hrun; [|exact Hpage]. simpl in Hrun.
  rewrite <- Hrun. case_decide as Hemp; [|done].
  rewrite Hemp, lookup_empty. unfold minimal_arrete.
  by rewrite !lookup_insert_ne, lookup_empty.
Qed.

(** C6 (as amended): in the returned order record the order number and
    the title are the normalized text of the first span of their type in
    the flat classified sequence, and the date is the normalized result of
    [process_date_brute] on the text of the first [arr_date] span; each is
    absent when there is no such span; hence two documents whose classified
    sequences agree get the same three fields, whatever else their pages
    hold. *)
Theorem scalar_fields_first_occurrence fp_pdf_in fp_txt_in log d :
  existsb nonempty (load_pages_text fp_txt_in) = true →
  parse_arrete fp_pdf_in fp_txt_in = (log, Returned d) →
  ∃ a, arretes d = [a]
       ∧ a !! "date"
         = (λ t, Some (normalize_string (process_date_brute t)))
             <$> first_span_txt "arr_date"
                   (doc_pages_cont fp_pdf_in fp_txt_in)
       ∧ a !! "num_arr"
         = (λ t, Some (normalize_string t))
             <$> first_span_txt "num_arr"
                   (doc_pages_cont fp_pdf_in fp_txt_in)
       ∧ a !! "nom_arr"
         = (λ t, Some (normalize_string t))
             <$> first_span_txt "nom_arr"
                   (doc_pages_cont fp_pdf_in fp_txt_in)
       ∧ ∀ fp_pdf_in' fp_txt_in' log' d',
           existsb nonempty (load_pages_text fp_txt_in') = true →
           parse_arrete fp_pdf_in' fp_txt_in' = (log', Returned d') →
           doc_pages_cont fp_pdf_in' fp_txt_in'
             = doc_pages_cont fp_pdf_in fp_txt_in →
           ∃ a', arretes d' = [a']
                 ∧ a' !! "date" = a !! "date"
                 ∧ a' !! "num_arr" = a !! "num_arr"
                 ∧ a' !! "nom_arr" = a !! "nom_arr".
Proof.
  intros Htext Hret.
  destruct (scalar_fields_of_document _ _ _ _ Htext Hret) as (a & Ha & Hkeys).
  destruct (scalar_fields_first (doc_pages_cont fp_pdf_in fp_txt_in))
    as (Hdate & Hnum & Hnom).
  exists a. split; [done|].
  rewrite <- Hdate, <- Hnum, <- Hnom.
  do 3 (split; [apply Hkeys; set_solver|]).
  intros fp_pdf_in' fp_txt_in' log' d' Htext' Hret' Hcont.
  destruct (scalar_fields_of_document _ _ _ _ Htext' Hret')
    as (a' & Ha' & Hkeys').
  exists a'. split; [done|]. rewrite !Hkeys, !Hkeys', Hcont by set_solver.
  done.
Qed.

(** ** The notified parties *)

Lemma step_parcelles_notifies fn_pdf b st :
  st_proprios (step_parcelles fn_pdf b st) = st_proprios st
  ∧ st_syndics (step_parcelles fn_pdf b st) = st_syndics st
  ∧ st_gests (step_parcelles fn_pdf b st) = st_gests st.
Proof.
  unfold step_parcelles. destruct (get_parcelle b) as [s|]; [|done].
  by destruct (nonempty s).
Qed.

Lemma add_notifie_union v s :
  add_notifie v s = s ∪ list_to_set (option_list (normalize_string <$> v)).
Proof. destruct v; simpl; set_solver. Qed.

(** Each page with text adds its detection, if any, to each set. *)
Lemma page_step_notifies fn_pdf fp_pdf_in hint st b l st' :
  page_step fn_pdf fp_pdf_in hint st b = (l, Returned st') →
  st_proprios st' = st_proprios st ∪ list_to_set (detections get_proprio [b])
  ∧ st_syndics st' = st_syndics st ∪ list_to_set (detections get_syndic [b])
  ∧ st_gests st' = st_gests st ∪ list_to_set (detections get_gest [b]).
Proof.
  intros Hstep. unfold detections. simpl. destruct (nonempty b) eqn:Hb.
  - apply page_step_Returned in Hstep as (st1 & Hadr & ->); [|done].
    apply step_adresses_Returned in Hadr as (_ & <- & <- & <- & _).
    destruct (step_parcelles_notifies fn_pdf b
                (step_notifies b (step_arrete fn_pdf fp_pdf_in b st1)))
      as (-> & -> & ->).
    simpl. rewrite !add_notifie_union.
    by destruct (get_proprio b), (get_syndic b), (get_gest b).
  - rewrite page_step_empty in Hstep by done. injection Hstep as _ <-.
    set_solver.
Qed.

Lemma detections_cons get b bodies :
  detections get (b :: bodies) = detections get [b] ++ detections get bodies.
Proof.
  unfold detections. simpl.
  by destruct (if nonempty b then normalize_string <$> get b else None).
Qed.

(** At the end of the loop each set holds exactly the normalized
    detections of its detector on the pages with text. *)
Lemma run_notifies fn_pdf fp_pdf_in hint bodies st l st' :
  foldM (page_step fn_pdf fp_pdf_in hint) st bodies = (l, Returned st') →
  st_proprios st' = st_proprios st ∪ list_to_set (detections get_proprio bodies)
  ∧ st_syndics st' = st_syndics st ∪ list_to_set (detections get_syndic bodies)
  ∧ st_gests st' = st_gests st ∪ list_to_set (detections get_gest bodies).
Proof.
  revert st l. induction bodies as [|b bodies IH]; intros st l Hrun.
  - injection Hrun as _ <-. set_solver.
  - apply foldM_cons_Returned in Hrun as (l1 & s1 & l2 & Hstep & Hrun & _).
    apply page_step_notifies in Hstep as (Hp & Hs & Hg).
    apply IH in Hrun as (-> & -> & ->). rewrite Hp, Hs, Hg.
    rewrite !(detections_cons _ b bodies), !list_to_set_app_L.
    set_solver.
Qed.

Lemma elem_of_detections get bodies i b v :
  bodies !! i = Some b → nonempty b = true → get b = Some v →
  normalize_string v ∈ detections get bodies.
Proof.
  intros Hi Hb Hv. unfold detections.
  apply list_elem_of_omap.
  exists b. split; [by eapply list_elem_of_lookup_2|]. by rewrite Hb, Hv.
Qed.

Lemma filter_eq_not_elem_of (x : string) (l : list string) :
  x ∉ l → filter (λ y, y = x) l = [].
Proof.
  induction l as [|y l IH]; [done|]. intros Hx.
  apply not_elem_of_cons in Hx as [Hxy Hx].
  rewrite filter_cons_False by congruence. by apply IH.
Qed.

(** A set holds each of its elements once. *)
Lemma entries_elem_of x s : x ∈ s → entries x s = 1.
Proof.
  intros Hx. unfold entries. apply elem_of_elements in Hx.
  pose proof (NoDup_elements s) as Hnd.
  induction Hnd as [|y l Hy Hnd IH]; [by apply elem_of_nil in Hx|].
  destruct (decide (y = x)) as [->|Hyx].
  - rewrite filter_cons_True by done. simpl.
    by rewrite filter_eq_not_elem_of.
  - rewrite filter_cons_False by done.
    apply elem_of_cons in Hx as [->|Hx]; [done|]. by apply IH.
Qed.

(** ** C8 *)

Lemma parse_arrete_loop_Returned fp_pdf_in fp_txt_in l st :
  parse_arrete_loop (path_name fp_pdf_in) fp_pdf_in fp_txt_in
    (load_pages_text fp_txt_in) = (l, Returned st) →
  ∃ l0 l1, doc_run fp_pdf_in fp_txt_in = (l1, Returned st) ∧ l = l0 ++ l1.
Proof.
  unfold parse_arrete_loop. intros Hrun.
  apply bind_Returned in Hrun as (l0 & [] & l1 & _ & Hrun & ->).
  by exists l0, l1.
Qed.

(** C8: when the page loop of [parse_arrete] returns, each notified-party
    accumulator (owners, syndics, managers) is the set of the normalized
    detections of its detector on the pages with text, and two detections
    on different pages with the same normalized string are one entry of
    that set; for a document with some text, [parse_arrete] then returns
    what the finalization makes of that state. *)
Theorem notifies_sets_deduplicate fp_pdf_in fp_txt_in l st :
  parse_arrete_loop (path_name fp_pdf_in) fp_pdf_in fp_txt_in
    (load_pages_text fp_txt_in) = (l, Returned st) →
  Forall (λ '(get, acc),
    acc st = list_to_set (detections get (doc_pages_body fp_pdf_in fp_txt_in))
    ∧ ∀ i j bi bj vi vj,
        i ≠ j →
        doc_pages_body fp_pdf_in fp_txt_in !! i = Some bi →
        doc_pages_body fp_pdf_in fp_txt_in !! j = Some bj →
        nonempty bi = true → nonempty bj = true →
        get bi = Some vi → get bj = Some vj →
        normalize_string vi = normalize_string vj →
        entries (normalize_string vi) (acc st) = 1)
    accumulators
  ∧ (existsb nonempty (load_pages_text fp_txt_in) = true →
     parse_arrete fp_pdf_in fp_txt_in
     = (l, Returned (finalize (path_name fp_pdf_in) fp_pdf_in st))).
Proof.
  intros Hloop. split.
  - apply parse_arrete_loop_Returned in Hloop as (l0 & l1 & Hrun & _).
    unfold doc_run in Hrun.
    apply run_notifies in Hrun as (Hp & Hs & Hg). simpl in Hp, Hs, Hg.
    rewrite (left_id_L ∅ (∪)) in Hp, Hs, Hg.
    unfold accumulators. repeat constructor; try done;
      intros i j bi bj vi vj _ Hi _ Hbi _ Hvi _ _;
      apply entries_elem_of;
      rewrite ?Hp, ?Hs, ?Hg; apply elem_of_list_to_set;
      by eapply elem_of_detections.
  - intros Htext. unfold parse_arrete. rewrite Htext. cbn [negb].
    cbn zeta. rewrite Hloop. cbn [bind ret].
    by rewrite (right_id_L [] (++)).
Qed.

(** ** The document-level codes *)

Lemma page_step_text fn_pdf fp_pdf_in hint st b l st' :
  nonempty b = true →
  page_step fn_pdf fp_pdf_in hint st b = (l, Returned st') →
  ∃ st1, step_adresses fn_pdf b hint st = (l, Returned st1)
         ∧ st_adresses st' = st_adresses st1
         ∧ st_codeinsee st' = st_codeinsee st1
         ∧ st_cpostal st' = st_cpostal st1
         ∧ st_parcelles st' =
             st_parcelles st
             ∪ page_parcelles fn_pdf b (st_codeinsee st1) (st_cpostal st1).
Proof.
  intros Hb Hstep.
  apply page_step_Returned in Hstep as (st1 & Hadr & ->); [|done].
  exists st1. split; [done|].
  apply step_adresses_Returned in Hadr as (_ & _ & _ & _ & <- & _).
  unfold step_parcelles, page_parcelles.
  destruct (get_parcelle b) as [s|]; [destruct (nonempty s)|]; simpl;
    repeat split; set_solver.
Qed.

Lemma page_step_codes fn_pdf fp_pdf_in hint st b l st' :
  codes_of_first_adresse st →
  page_step fn_pdf fp_pdf_in hint st b = (l, Returned st') →
  codes_of_first_adresse st'.
Proof.
  intros Hst Hstep. destruct (nonempty b) eqn:Hb.
  - apply page_step_text in Hstep
      as (st1 & Hadr & Ha & Hci & Hcp & _); [|done].
    unfold codes_of_first_adresse. rewrite Ha, Hci, Hcp.
    apply step_adresses_Returned in Hadr
      as (_ & _ & _ & _ & _ & [(_ & _ & ->)|[(_ & _ & ->)|
           (_ & a & rest & _ & -> & -> & ->)]]); done.
  - rewrite page_step_empty in Hstep by done. by injection Hstep as _ <-.
Qed.

Lemma run_codes fn_pdf fp_pdf_in hint bodies st l st' :
  codes_of_first_adresse st →
  foldM (page_step fn_pdf fp_pdf_in hint) st bodies = (l, Returned st') →
  codes_of_first_adresse st'.
Proof.
  intros Hst Hrun.
  eapply (foldM_invariant _ codes_of_first_adresse); [|exact Hst|exact Hrun].
  intros s b l0 s0 _ Hs Hstep. by eapply page_step_codes.
Qed.

Lemma doc_run_codes fp_pdf_in fp_txt_in l st :
  doc_run fp_pdf_in fp_txt_in = (l, Returned st) → codes_of_first_adresse st.
Proof. intros Hrun. by eapply run_codes; [|exact Hrun]. Qed.

Lemma detections_none get bodies :
  Forall (λ b, nonempty b = true → get b = None) bodies →
  detections get bodies = [].
Proof.
  induction 1 as [|b bodies Hb _ IH]; [done|].
  rewrite detections_cons, IH. unfold detections. simpl.
  destruct (nonempty b); [|done]. by rewrite Hb.
Qed.

(** ** C9 *)

(** C9: a document with some text whose aggregation returns has exactly
    one notified-parties record; the record carries the document's INSEE
    code (that of the first address, or None without address), and each of
    its id fields is None when its detector found nothing on any page with
    text. *)
Theorem notifies_single_record fp_pdf_in fp_txt_in log d :
  existsb nonempty (load_pages_text fp_txt_in) = true →
  parse_arrete fp_pdf_in fp_txt_in = (log, Returned d) →
  ∃ n, notifies d = [n]
       ∧ notifie_codeinsee n = (a ← head (adresses d); codeinsee a)
       ∧ (Forall (λ b, nonempty b = true → get_proprio b = None)
            (doc_pages_body fp_pdf_in fp_txt_in) → id_proprio n = None)
       ∧ (Forall (λ b, nonempty b = true → get_syndic b = None)
            (doc_pages_body fp_pdf_in fp_txt_in) → id_syndic n = None)
       ∧ (Forall (λ b, nonempty b = true → get_gest b = None)
            (doc_pages_body fp_pdf_in fp_txt_in) → id_gest n = None).
Proof.
  intros Htext Hret.
  apply parse_arrete_Returned in Hret as (l0 & l1 & st & Hrun & -> & _);
    [|done].
  eexists. split; [done|]. simpl.
  split; [by apply doc_run_codes in Hrun as [-> _]|].
  unfold doc_run in Hrun. apply run_notifies in Hrun as (-> & -> & ->).
  repeat split; intros Hnone; by rewrite detections_none.
Qed.

(** ** The address steps *)

Lemma mapM_Returned {A B} (f : A → M B) xs l ys :
  mapM f xs = (l, Returned ys) →
  Forall2 (λ x y, ∃ lx, f x = (lx, Returned y)) xs ys.
Proof.
  revert l ys. induction xs as [|x xs IH]; intros l ys Hrun.
  - injection Hrun as _ <-. constructor.
  - simpl in Hrun.
    apply bind_Returned in Hrun as (l1 & y & l2 & Hx & Hrun & _).
    apply bind_Returned in Hrun as (l3 & ys' & l4 & Hxs & Hret & _).
    injection Hret as _ <-. constructor; [by exists l1|by eapply IH].
Qed.

(** A [for] loop that builds a list raises at the first element whose body
    raises. *)
Lemma mapM_Raised {A B} (f : A → M B) before x after lx e :
  Forall (λ y, ∃ ly z, f y = (ly, Returned z)) before →
  f x = (lx, Raised e) →
  ∃ l, mapM f (before ++ x :: after) = (l, Raised e).
Proof.
  intros Hbefore Hx. induction Hbefore as [|y before (ly & z & Hy) _ [l IH]].
  - simpl. rewrite Hx. by eexists.
  - simpl. rewrite Hy. simpl. rewrite IH. by eexists.
Qed.

Lemma extract_no_adresse fn_pdf b hint :
  no_adresse_on b →
  ∃ l, extract_adresses_commune fn_pdf b hint = (l, Returned []).
Proof.
  unfold no_adresse_on, extract_adresses_commune.
  destruct (get_adr_doc b) as [|adr0 zones]; [by exists []|].
  intros ->. simpl. by eexists.
Qed.

(** When the first zone of the page expands to some address, what
    [extract_adresses_commune] returns is the resolution of each address of
    that zone, in order. *)
Lemma extract_Returned fn_pdf b hint adr0 zones l r :
  get_adr_doc b = adr0 :: zones →
  extract_adresses_commune fn_pdf b hint = (l, Returned r) →
  Forall2 (λ x a, ∃ la, resolve_adresse fn_pdf hint
                          (adresse_of_fields (adresse_brute adr0) x)
                        = (la, Returned a))
    (zone_adresses adr0) r.
Proof.
  unfold extract_adresses_commune. intros -> Hrun.
  apply bind_Returned in Hrun as (l1 & [] & l2 & _ & Hrun & _).
  apply mapM_Returned in Hrun. by apply Forall2_fmap_l in Hrun.
Qed.

Lemma extract_Returned_nil fn_pdf b hint l :
  extract_adresses_commune fn_pdf b hint = (l, Returned []) →
  no_adresse_on b.
Proof.
  intros Hrun. unfold no_adresse_on.
  destruct (get_adr_doc b) as [|adr0 zones] eqn:Hzones; [done|].
  eapply extract_Returned in Hrun; [|done].
  by apply Forall2_nil_inv_r in Hrun.
Qed.

Lemma extract_Returned_cons fn_pdf b hint l a rest :
  extract_adresses_commune fn_pdf b hint = (l, Returned (a :: rest)) →
  ∃ adr0 zones, get_adr_doc b = adr0 :: zones.
Proof.
  unfold extract_adresses_commune.
  destruct (get_adr_doc b) as [|adr0 zones]; [done|]. by exists adr0, zones.
Qed.

(** While no page gives an address, the address list stays empty and the
    codes stay as they are. *)
Lemma run_no_adresse fn_pdf fp_pdf_in hint bodies st l st' :
  Forall (λ p, nonempty p = true → no_adresse_on p) bodies →
  st_adresses st = [] →
  foldM (page_step fn_pdf fp_pdf_in hint) st bodies = (l, Returned st') →
  st_adresses st' = []
  ∧ st_codeinsee st' = st_codeinsee st
  ∧ st_cpostal st' = st_cpostal st.
Proof.
  intros Hnone Hst Hrun.
  eapply (foldM_invariant _
            (λ s, st_adresses s = [] ∧ st_codeinsee s = st_codeinsee st
                  ∧ st_cpostal s = st_cpostal st));
    [|done|exact Hrun].
  intros s b l0 s0 Hin (Ha & Hci & Hcp) Hstep.
  destruct (nonempty b) eqn:Hb.
  - apply page_step_text in Hstep
      as (st1 & Hadr & -> & -> & -> & _); [|done].
    apply step_adresses_Returned in Hadr
      as (_ & _ & _ & _ & _ & [(Hne & _)|[(_ & _ & ->)|
           (_ & a & rest & Hex & _)]]); [done|done|].
    rewrite list.Forall_forall in Hnone.
    destruct (extract_no_adresse fn_pdf b hint (Hnone b Hin Hb)) as [l' Hl'].
    congruence.
  - rewrite page_step_empty in Hstep by done. by injection Hstep as _ <-.
Qed.

(** Once there is an address, the addresses and the codes never change,
    and every later parcel reference is computed with these codes. *)
Lemma run_adresses_fixed fn_pdf fp_pdf_in hint bodies st l st' :
  st_adresses st ≠ [] →
  foldM (page_step fn_pdf fp_pdf_in hint) st bodies = (l, Returned st') →
  st_adresses st' = st_adresses st
  ∧ st_codeinsee st' = st_codeinsee st
  ∧ st_cpostal st' = st_cpostal st
  ∧ st_parcelles st ⊆ st_parcelles st'
  ∧ Forall (λ p, nonempty p = true →
              page_parcelles fn_pdf p (st_codeinsee st) (st_cpostal st)
                ⊆ st_parcelles st') bodies.
Proof.
  revert st l. induction bodies as [|b bodies IH]; intros st l Hst Hrun.
  - injection Hrun as _ <-. by repeat split.
  - apply foldM_cons_Returned in Hrun as (l1 & s1 & l2 & Hstep & Hrun & _).
    assert (st_adresses s1 = st_adresses st
            ∧ st_codeinsee s1 = st_codeinsee st
            ∧ st_cpostal s1 = st_cpostal st
            ∧ (if nonempty b
               then st_parcelles s1 =
                      st_parcelles st
                      ∪ page_parcelles fn_pdf b (st_codeinsee st)
                          (st_cpostal st)
               else s1 = st)) as (Ha & Hci & Hcp & Hpar).
    { destruct (nonempty b) eqn:Hb.
      - apply page_step_text in Hstep
          as (st1 & Hadr & -> & -> & -> & ->); [|done].
        apply step_adresses_Returned in Hadr
          as (_ & _ & _ & _ & _ & [(_ & _ & ->)|[(Hnil & _)|(Hnil & _)]]);
          done.
      - rewrite page_step_empty in Hstep by done.
        by injection Hstep as _ <-. }
    apply IH in Hrun as (-> & -> & -> & Hsub & Hall); [|by rewrite Ha].
    rewrite Ha, Hci, Hcp in *. do 3 (split; [done|]).
    destruct (nonempty b) eqn:Hb.
    + rewrite Hpar in Hsub. split; [set_solver|].
      constructor; [intros _; set_solver|done].
    + subst s1. split; [done|]. constructor; [intros ?; congruence|done].
Qed.

Lemma run_parcelles_mono fn_pdf fp_pdf_in hint bodies st l st' :
  foldM (page_step fn_pdf fp_pdf_in hint) st bodies = (l, Returned st') →
  st_parcelles st ⊆ st_parcelles st'.
Proof.
  intros Hrun.
  eapply (foldM_invariant _ (λ s, st_parcelles st ⊆ st_parcelles s));
    [|done|exact Hrun].
  intros s b l0 s0 _ Hs Hstep. destruct (nonempty b) eqn:Hb.
  - apply page_step_text in Hstep as (st1 & _ & _ & _ & _ & ->); [|done].
    set_solver.
  - rewrite page_step_empty in Hstep by done. by injection Hstep as _ <-.
Qed.

(** The address list of a returning loop that starts without address:
    either no page gave an address, or the addresses are those of the first
    zone of the first page that gives some. *)
Lemma run_from_no_adresse fn_pdf fp_pdf_in hint bodies st l st' :
  st_adresses st = [] →
  foldM (page_step fn_pdf fp_pdf_in hint) st bodies = (l, Returned st') →
  (st_adresses st' = []
   ∧ st_codeinsee st' = st_codeinsee st
   ∧ st_cpostal st' = st_cpostal st
   ∧ Forall (λ b, nonempty b = true → no_adresse_on b) bodies)
  ∨ ∃ pre b post adr0 zones a rest,
      bodies = pre ++ b :: post
      ∧ Forall (λ p, nonempty p = true → no_adresse_on p) pre
      ∧ nonempty b = true
      ∧ get_adr_doc b = adr0 :: zones
      ∧ st_adresses st' = a :: rest
      ∧ Forall2 (λ x a', ∃ la, resolve_adresse fn_pdf hint
                                 (adresse_of_fields (adresse_brute adr0) x)
                               = (la, Returned a'))
          (zone_adresses adr0) (a :: rest)
      ∧ st_codeinsee st' = codeinsee a
      ∧ st_cpostal st' = cpostal a
      ∧ Forall (λ p, nonempty p = true →
                  page_parcelles fn_pdf p (codeinsee a) (cpostal a)
                    ⊆ st_parcelles st') (b :: post).
Proof.
  revert st l. induction bodies as [|b bodies IH]; intros st l Hst Hrun.
  { injection Hrun as _ <-. left. by repeat split. }
  apply foldM_cons_Returned in Hrun as (l1 & s1 & l2 & Hstep & Hrun & _).
  assert (∀ s1', st_adresses s1' = [] →
            st_codeinsee s1' = st_codeinsee st →
            st_cpostal s1' = st_cpostal st →
            (nonempty b = true → no_adresse_on b) →
            foldM (page_step fn_pdf fp_pdf_in hint) s1' bodies
              = (l2, Returned st') →
            (st_adresses st' = []
             ∧ st_codeinsee st' = st_codeinsee st
             ∧ st_cpostal st' = st_cpostal st
             ∧ Forall (λ b, nonempty b = true → no_adresse_on b)
                 (b :: bodies))
            ∨ ∃ pre b0 post adr0 zones a rest,
                b :: bodies = pre ++ b0 :: post
                ∧ Forall (λ p, nonempty p = true → no_adresse_on p) pre
                ∧ nonempty b0 = true
                ∧ get_adr_doc b0 = adr0 :: zones
                ∧ st_adresses st' = a :: rest
                ∧ Forall2 (λ x a', ∃ la,
                    resolve_adresse fn_pdf hint
                      (adresse_of_fields (adresse_brute adr0) x)
                    = (la, Returned a'))
                    (zone_adresses adr0) (a :: rest)
                ∧ st_codeinsee st' = codeinsee a
                ∧ st_cpostal st' = cpostal a
                ∧ Forall (λ p, nonempty p = true →
                            page_parcelles fn_pdf p (codeinsee a) (cpostal a)
                              ⊆ st_parcelles st') (b0 :: post)) as Hskip.
  { intros s1' Ha Hci Hcp Hnob Hrun'.
    apply IH in Hrun'; [|done].
    destruct Hrun' as [(Ha' & Hci' & Hcp' & Hall)|
      (pre & b0 & post & adr0 & zones & a & rest & -> & Hpre & Hrest)].
    - left. rewrite Hci', Hcp', Hci, Hcp. by repeat constructor.
    - right. exists (b :: pre), b0, post, adr0, zones, a, rest.
      split; [done|]. split; [by constructor|done]. }
  destruct (nonempty b) eqn:Hb.
  - apply page_step_text in Hstep
      as (st1 & Hadr & Ha1 & Hci1 & Hcp1 & Hpar1); [|done].
    apply step_adresses_Returned in Hadr
      as (_ & _ & _ & _ & _ & [(Hne & _)|[(_ & Hex & ->)|
           (_ & a & rest & Hex & Ha & Hci & Hcp)]]); [done| |].
    + apply (Hskip s1); try congruence.
      intros _. by eapply extract_Returned_nil.
    + right.
      destruct (extract_Returned_cons _ _ _ _ _ _ Hex) as (adr0 & zones & Hz).
      apply run_adresses_fixed in Hrun
        as (Ha' & Hci' & Hcp' & Hsub & Hall); [|by rewrite Ha1, Ha].
      exists [], b, bodies, adr0, zones, a, rest.
      rewrite Ha', Hci', Hcp', Ha1, Hci1, Hcp1, Ha, Hci, Hcp.
      rewrite Hci1, Hcp1, Hci, Hcp in Hall.
      repeat split; try done.
      { by eapply extract_Returned. }
      constructor; [|done]. intros _. rewrite Hpar1, Hci, Hcp in Hsub.
      set_solver.
  - rewrite page_step_empty in Hstep by done. injection Hstep as _ <-.
    apply (Hskip st); try done.
Qed.

(** ** C10 *)

(** C10: every row of the parcels output carries the final INSEE code of
    the document (that of the first address, or None without address), also
    when its reference was computed on a page where no address was known
    yet, that is with None for the INSEE and the postal code. *)
Theorem parcelles_tagged_with_final_codeinsee fp_pdf_in fp_txt_in log d :
  existsb nonempty (load_pages_text fp_txt_in) = true →
  parse_arrete fp_pdf_in fp_txt_in = (log, Returned d) →
  Forall (λ p, parcelle_codeinsee p = (a ← head (adresses d); codeinsee a))
    (parcelles d)
  ∧ ∀ pre b post s,
      doc_pages_body fp_pdf_in fp_txt_in = pre ++ b :: post →
      Forall (λ p, nonempty p = true → no_adresse_on p) (pre ++ [b]) →
      nonempty b = true → get_parcelle b = Some s → nonempty s = true →
      {| ref_cad :=
           generate_refcadastrale_norm None s (path_name fp_pdf_in) None;
         parcelle_codeinsee := a ← head (adresses d); codeinsee a |}
        ∈ parcelles d.
Proof.
  intros Htext Hret.
  apply parse_arrete_Returned in Hret as (l0 & l1 & st & Hrun & -> & _);
    [|done].
  destruct (doc_run_codes _ _ _ _ Hrun) as [Hci _]. simpl. rewrite <- Hci.
  split.
  { apply list.Forall_forall. intros p Hp.
    by apply list_elem_of_fmap in Hp as (x & -> & _). }
  intros pre b post s Hbodies Hnone Hb Hs Hsne.
  eapply (list_elem_of_fmap_2' _ _
            (generate_refcadastrale_norm None s (path_name fp_pdf_in) None));
    [|done].
  apply elem_of_elements.
  unfold doc_run in Hrun. rewrite Hbodies in Hrun.
  apply Forall_app in Hnone as [Hpre Hnob].
  apply Forall_inv in Hnob.
  apply foldM_app_Returned in Hrun as (l2 & s1 & l3 & Hrun1 & Hrun & _).
  apply run_no_adresse in Hrun1 as (Ha & Hci1 & Hcp1); [|done..].
  simpl in Hci1, Hcp1.
  apply foldM_cons_Returned in Hrun as (l4 & s2 & l5 & Hstep & Hrun & _).
  apply run_parcelles_mono in Hrun. apply Hrun.
  apply page_step_text in Hstep as (st1 & Hadr & _ & _ & _ & ->); [|done].
  assert (st1 = s1) as ->.
  { apply step_adresses_Returned in Hadr
      as (_ & _ & _ & _ & _ & [(Hne & _)|[(_ & _ & ->)|
           (_ & a & rest & Hex & _)]]); [done|done|].
    destruct (extract_no_adresse (path_name fp_pdf_in) b
                (commune_maire_of (doc_pages_cont fp_pdf_in fp_txt_in))
                (Hnob Hb)) as [l' Hl'].
    congruence. }
  rewrite Hci1, Hcp1. unfold page_parcelles. rewrite Hs, Hsne. set_solver.
Qed.

(** ** C7 *)

Lemma fill_cpostal_Returned fn_pdf ci a :
  ∃ l, fill_cpostal fn_pdf ci a = (l, Returned (with_cpostal ci a)).
Proof.
  unfold fill_cpostal, with_cpostal. destruct (truthy (cpostal a)).
  - by exists [].
  - simpl. destruct (negb _); simpl; by eexists.
Qed.

Lemma when_Returned b c :
  (∃ l, c = (l, Returned tt)) → ∃ l, when b c = (l, Returned tt).
Proof. destruct b; simpl; [done|]. by exists []. Qed.

Lemma resolve_adresse_fails fn_pdf hint a0 e :
  normalisation_fails hint a0 e →
  ∃ l, resolve_adresse fn_pdf hint a0 = (l, Raised e).
Proof.
  intros (ci & Hci & Hcreate). unfold resolve_adresse.
  destruct (when_Returned
              (negb (truthy (ville (set_ville
                 (determine_commune (ville a0) hint) a0))))
              (emit (LogWarning (MsgCommune fn_pdf))))
    as [l1 ->]; [by eexists|].
  unfold try_get_codeinsee. rewrite Hci. simpl.
  destruct (when_Returned (negb (truthy ci))
              (emit (LogWarning (MsgCodeinsee fn_pdf))))
    as [l2 ->]; [by eexists|].
  simpl.
  destruct (fill_cpostal_Returned fn_pdf ci
              (set_ville (determine_commune (ville a0) hint) a0))
    as [l3 ->].
  simpl in *. rewrite Hcreate. simpl. by eexists.
Qed.

Lemma extract_fails fn_pdf b hint adr0 zones before x after e :
  get_adr_doc b = adr0 :: zones →
  zone_adresses adr0 = before ++ x :: after →
  Forall (λ y, ∃ l a, resolve_adresse fn_pdf hint
                        (adresse_of_fields (adresse_brute adr0) y)
                      = (l, Returned a)) before →
  normalisation_fails hint (adresse_of_fields (adresse_brute adr0) x) e →
  ∃ l, extract_adresses_commune fn_pdf b hint = (l, Raised e).
Proof.
  intros Hzones Hsplit Hbefore Hfail.
  unfold extract_adresses_commune. rewrite Hzones, Hsplit, fmap_app.
  simpl. rewrite bool_decide_eq_false_2 by (by destruct before).
  simpl.
  destruct (resolve_adresse_fails fn_pdf _ _ _ Hfail) as [lx Hx].
  destruct (mapM_Raised (resolve_adresse fn_pdf hint)
              (adresse_of_fields (adresse_brute adr0) <$> before)
              (adresse_of_fields (adresse_brute adr0) x)
              (adresse_of_fields (adresse_brute adr0) <$> after) lx e)
    as [l Hl]; [by apply Forall_fmap|done|].
  change (list_fmap adr_fields Adresse ?f after) with (f <$> after).
  rewrite Hl. by eexists.
Qed.

(** Pages that give no address never stop the loop. *)
Lemma run_no_adresse_total fn_pdf fp_pdf_in hint bodies st :
  Forall (λ p, nonempty p = true → no_adresse_on p) bodies →
  st_adresses st = [] →
  ∃ l st', foldM (page_step fn_pdf fp_pdf_in hint) st bodies
             = (l, Returned st')
           ∧ st_adresses st' = [].
Proof.
  intros Hall. revert st. induction Hall as [|b bodies Hb _ IH]; intros st Hst.
  - by exists [], st.
  - simpl. unfold page_step at 1. destruct (nonempty b) eqn:Hne.
    + unfold step_adresses. rewrite Hst.
      destruct (extract_no_adresse fn_pdf b hint (Hb eq_refl)) as [lb ->].
      simpl.
      match goal with
      | |- context [foldM _ ?s bodies] =>
          destruct (IH s) as (l & st' & -> & Hst');
            [by rewrite (proj1 (step_parcelles_codes _ _ _))|]
      end.
      by eexists _, st'.
    + rewrite bind_ret_l. by apply IH.
Qed.

Lemma run_fails fn_pdf fp_pdf_in hint pre b post st lb e :
  st_adresses st = [] →
  Forall (λ p, nonempty p = true → no_adresse_on p) pre →
  nonempty b = true →
  extract_adresses_commune fn_pdf b hint = (lb, Raised e) →
  ∃ l, foldM (page_step fn_pdf fp_pdf_in hint) st (pre ++ b :: post)
       = (l, Raised e).
Proof.
  intros Hst Hpre Hb Hex. rewrite foldM_app.
  destruct (run_no_adresse_total fn_pdf fp_pdf_in hint pre st Hpre Hst)
    as (l1 & s1 & -> & Hs1).
  simpl. unfold page_step at 1. rewrite Hb. unfold step_adresses.
  rewrite Hs1, Hex. simpl. by eexists.
Qed.

(** C7: when, during the resolution of the address zone the document
    reaches, [create_adresse_normalisee] raises, the same exception leaves
    [extract_adresses_commune] and then [parse_arrete]: the document yields
    no result, and the failure is not turned into a warning. *)
Theorem coherence_failure_aborts
    fp_pdf_in fp_txt_in pre b post adr0 zones before x after e :
  existsb nonempty (load_pages_text fp_txt_in) = true →
  doc_pages_body fp_pdf_in fp_txt_in = pre ++ b :: post →
  Forall (λ p, nonempty p = true → no_adresse_on p) pre →
  nonempty b = true →
  get_adr_doc b = adr0 :: zones →
  zone_adresses adr0 = before ++ x :: after →
  Forall (λ y, ∃ l a,
            resolve_adresse (path_name fp_pdf_in)
              (commune_maire_of (doc_pages_cont fp_pdf_in fp_txt_in))
              (adresse_of_fields (adresse_brute adr0) y)
            = (l, Returned a)) before →
  normalisation_fails
    (commune_maire_of (doc_pages_cont fp_pdf_in fp_txt_in))
    (adresse_of_fields (adresse_brute adr0) x) e →
  (∃ l, extract_adresses_commune (path_name fp_pdf_in) b
          (commune_maire_of (doc_pages_cont fp_pdf_in fp_txt_in))
        = (l, Raised e))
  ∧ ∃ log, parse_arrete fp_pdf_in fp_txt_in = (log, Raised e).
Proof.
  intros Htext Hbodies Hpre Hb Hzones Hsplit Hbefore Hfail.
  destruct (extract_fails (path_name fp_pdf_in) b _ _ _ _ _ _ _
              Hzones Hsplit Hbefore Hfail) as [lb Hex].
  split; [by exists lb|].
  destruct (run_fails (path_name fp_pdf_in) fp_pdf_in _ pre b post
              (init_state (scalar_fields (doc_pages_cont fp_pdf_in fp_txt_in)))
              lb e eq_refl Hpre Hb Hex) as [l Hrun].
  rewrite <- Hbodies in Hrun.
  destruct (parse_arrete_of_run fp_pdf_in fp_txt_in l (Raised e) Htext Hrun)
    as [l0 Hret].
  by eexists.
Qed.

(** ** C2 *)

Lemma soft_misses_logged_mono fn_pdf l l' a :
  l ⊆ l' → soft_misses_logged fn_pdf l a → soft_misses_logged fn_pdf l' a.
Proof. intros Hsub [Hv Hc]. split; intros Hnull; apply Hsub; auto. Qed.

Ltac more_log H :=
  eapply soft_misses_logged_mono; [|exact H]; set_solver.

Lemma with_cpostal_ville ci a : ville (with_cpostal ci a) = ville a.
Proof. unfold with_cpostal. by destruct (truthy (cpostal a)). Qed.

(** When the two calls return, so does the resolution of the address,
    with a warning for each of the two fields that is null or empty. *)
Lemma resolve_adresse_soft fn_pdf hint zone_brute x :
  resolution_returns hint zone_brute x →
  ∃ l a, resolve_adresse fn_pdf hint (adresse_of_fields zone_brute x)
         = (l, Returned a)
         ∧ soft_misses_logged fn_pdf l a.
Proof.
  unfold resolution_returns, resolve_adresse.
  set (a1 := set_ville _ _). intros (ci & s & Hci & Hs).
  unfold try_get_codeinsee. rewrite Hci.
  destruct (fill_cpostal_Returned fn_pdf ci a1) as [l3 Hfill].
  simpl in Hs.
  destruct (truthy (ville a1)) eqn:Hv; simpl;
    destruct (truthy ci) eqn:Hc; simpl;
    rewrite Hfill; simpl; rewrite Hs; simpl;
    (eexists _, _; split; [reflexivity|]);
    split; simpl; rewrite ?with_cpostal_ville; intros Hnull;
    try congruence; set_solver.
Qed.

Lemma mapM_resolve_soft fn_pdf hint zone_brute xs :
  Forall (resolution_returns hint zone_brute) xs →
  ∃ l r, mapM (resolve_adresse fn_pdf hint)
           (adresse_of_fields zone_brute <$> xs) = (l, Returned r)
         ∧ Forall (soft_misses_logged fn_pdf l) r.
Proof.
  induction 1 as [|x xs Hx _ (l & r & IH & Hr)].
  - by exists [], [].
  - rewrite fmap_cons. cbn [mapM].
    destruct (resolve_adresse_soft fn_pdf hint zone_brute x Hx)
      as (lx & a & -> & Ha).
    cbn [bind]. rewrite IH. simpl. eexists _, _. split; [reflexivity|].
    constructor.
    + more_log Ha.
    + eapply Forall_impl; [|exact Hr]. intros a' Ha'.
      more_log Ha'.
Qed.

Lemma extract_soft fn_pdf b hint :
  zone_returns hint b →
  ∃ l r, extract_adresses_commune fn_pdf b hint = (l, Returned r)
         ∧ Forall (soft_misses_logged fn_pdf l) r.
Proof.
  unfold zone_returns, extract_adresses_commune.
  destruct (get_adr_doc b) as [|adr0 zones]; [by exists [], []|].
  intros Hzone.
  destruct (mapM_resolve_soft fn_pdf hint (adresse_brute adr0)
              (zone_adresses adr0) Hzone) as (l & r & Hl & Hr).
  cbn zeta. rewrite Hl. destruct (bool_decide _); simpl; eexists _, _;
    (split; [reflexivity|]);
    (eapply Forall_impl; [|exact Hr]); intros a' Ha'.
  - more_log Ha'.
  - more_log Ha'.
Qed.

(** A page step returns when its address step has nothing to resolve or
    when the calls made for the first zone of the page return. *)
Lemma page_step_soft fn_pdf fp_pdf_in hint l0 st b :
  (st_adresses st = [] → nonempty b = true → zone_returns hint b) →
  Forall (soft_misses_logged fn_pdf l0) (st_adresses st) →
  ∃ l st', page_step fn_pdf fp_pdf_in hint st b = (l, Returned st')
           ∧ Forall (soft_misses_logged fn_pdf (l0 ++ l)) (st_adresses st')
           ∧ (st_adresses st' = [] →
              st_adresses st = [] ∧ (nonempty b = true → no_adresse_on b)).
Proof.
  intros Hzone Hst.
  assert (∀ l, Forall (soft_misses_logged fn_pdf (l0 ++ l)) (st_adresses st))
    as Hst'.
  { intros l. eapply Forall_impl; [|exact Hst]. intros a' Ha'.
    more_log Ha'. }
  unfold page_step. destruct (nonempty b) eqn:Hb.
  2: { exists [], st. split; [done|]. split; [apply Hst'|]. by intros ->. }
  unfold step_adresses. destruct (st_adresses st) as [|a0 rest0] eqn:Hadr.
  - destruct (extract_soft fn_pdf b hint (Hzone eq_refl eq_refl))
      as (l & r & Hex & Hr).
    rewrite Hex.
    destruct r as [|a rest]; simpl; eexists _, _; (split; [reflexivity|]);
      rewrite (proj1 (step_parcelles_codes _ _ _)); simpl.
    + rewrite Hadr. split; [constructor|]. intros _. split; [done|].
      intros _. by eapply extract_Returned_nil.
    + split; [|done]. eapply Forall_impl; [|exact Hr]. intros a' Ha'.
      more_log Ha'.
  - simpl. eexists _, _. split; [reflexivity|].
    rewrite (proj1 (step_parcelles_codes _ _ _)). simpl. rewrite Hadr.
    split; [apply Hst'|done].
Qed.

Lemma run_soft fn_pdf fp_pdf_in hint bodies l0 st :
  (st_adresses st = [] → lookups_return hint bodies) →
  Forall (soft_misses_logged fn_pdf l0) (st_adresses st) →
  ∃ l st', foldM (page_step fn_pdf fp_pdf_in hint) st bodies
             = (l, Returned st')
           ∧ Forall (soft_misses_logged fn_pdf (l0 ++ l)) (st_adresses st').
Proof.
  revert l0 st. induction bodies as [|b bodies IH]; intros l0 st Hret Hst.
  - exists [], st. split; [done|]. by rewrite (right_id_L [] (++)).
  - cbn [foldM]. cbn [lookups_return] in Hret.
    destruct (page_step_soft fn_pdf fp_pdf_in hint l0 st b)
      as (l1 & s1 & -> & Hs1 & Hnil); [|done|].
    { intros Ha Hb. specialize (Hret Ha). rewrite Hb in Hret.
      by destruct Hret. }
    destruct (IH (l0 ++ l1) s1) as (l2 & st' & Hrun & Hst'); [|done|].
    { intros Ha. destruct (Hnil Ha) as [Ha0 Hno]. specialize (Hret Ha0).
      destruct (nonempty b); [|done]. destruct Hret as [_ Hrest].
      by apply Hrest, Hno. }
    cbn [bind]. rewrite Hrun. exists (l1 ++ l2), st'. split; [done|].
    by rewrite (assoc_L (++)).
Qed.

(** The exception of [get_codeinsee] leaves the resolution loop. *)
Lemma resolve_adresse_codeinsee_Raised fn_pdf hint a0 e :
  get_codeinsee (ville (set_ville (determine_commune (ville a0) hint) a0))
    (cpostal (set_ville (determine_commune (ville a0) hint) a0))
  = Raised e →
  ∃ l, resolve_adresse fn_pdf hint a0 = (l, Raised e).
Proof.
  intros Hget. unfold resolve_adresse, try_get_codeinsee. rewrite Hget.
  destruct (truthy _), e; simpl; by eexists.
Qed.

(** C2 (as amended): a municipality that cannot be determined, or an INSEE
    code that [get_codeinsee] does not find, never aborts the document.
    When the calls of [get_codeinsee] and [create_adresse_normalisee] made
    for the addresses of the document return, [parse_arrete] returns its
    result, and each returned address whose municipality or INSEE code is
    null or empty has the matching warning in the log. When
    [get_codeinsee] raises AssertionError for an address of the zone the
    document reaches, the AssertionError leaves [parse_arrete]. *)
Theorem soft_misses_do_not_abort fp_pdf_in fp_txt_in :
  (lookups_return (commune_maire_of (doc_pages_cont fp_pdf_in fp_txt_in))
     (doc_pages_body fp_pdf_in fp_txt_in) →
   ∃ log d,
     parse_arrete fp_pdf_in fp_txt_in = (log, Returned d)
     ∧ Forall (soft_misses_logged (path_name fp_pdf_in) log) (adresses d))
  ∧ ∀ pre b post adr0 zones before x after,
      existsb nonempty (load_pages_text fp_txt_in) = true →
      doc_pages_body fp_pdf_in fp_txt_in = pre ++ b :: post →
      Forall (λ p, nonempty p = true → no_adresse_on p) pre →
      nonempty b = true →
      get_adr_doc b = adr0 :: zones →
      zone_adresses adr0 = before ++ x :: after →
      Forall (resolution_returns
                (commune_maire_of (doc_pages_cont fp_pdf_in fp_txt_in))
                (adresse_brute adr0)) before →
      get_codeinsee
        (determine_commune (adr_ville x)
           (commune_maire_of (doc_pages_cont fp_pdf_in fp_txt_in)))
        (adr_cpostal x) = Raised AssertionError →
      ∃ log, parse_arrete fp_pdf_in fp_txt_in = (log, Raised AssertionError).
Proof.
  split.
  - intros Hret.
    destruct (existsb nonempty (load_pages_text fp_txt_in)) eqn:Htext.
    + destruct (run_soft (path_name fp_pdf_in) fp_pdf_in
                  (commune_maire_of (doc_pages_cont fp_pdf_in fp_txt_in))
                  (doc_pages_body fp_pdf_in fp_txt_in) []
                  (init_state
                     (scalar_fields (doc_pages_cont fp_pdf_in fp_txt_in))))
        as (l & st & Hrun & Hst); [done|constructor|].
      destruct (parse_arrete_of_run fp_pdf_in fp_txt_in l (Returned st)
                  Htext Hrun) as [l0 Hparse].
      eexists _, _. split; [exact Hparse|]. simpl.
      eapply Forall_impl; [|exact Hst]. intros a' Ha'.
      more_log Ha'.
    + unfold parse_arrete. rewrite Htext. simpl. eexists _, _.
      split; [reflexivity|]. constructor.
  - intros pre b post adr0 zones before x after
      Htext Hbodies Hpre Hb Hzones Hsplit Hbefore Hget.
    destruct (resolve_adresse_codeinsee_Raised (path_name fp_pdf_in)
                (commune_maire_of (doc_pages_cont fp_pdf_in fp_txt_in))
                (adresse_of_fields (adresse_brute adr0) x) AssertionError
                Hget) as [lx Hx].
    destruct (mapM_Raised
                (resolve_adresse (path_name fp_pdf_in)
                   (commune_maire_of (doc_pages_cont fp_pdf_in fp_txt_in)))
                (adresse_of_fields (adresse_brute adr0) <$> before)
                (adresse_of_fields (adresse_brute adr0) x)
                (adresse_of_fields (adresse_brute adr0) <$> after)
                lx AssertionError) as [lm Hm]; [|exact Hx|].
    { apply Forall_fmap. eapply Forall_impl; [|exact Hbefore].
      intros y Hy. simpl.
      destruct (resolve_adresse_soft (path_name fp_pdf_in) _ _ _ Hy)
        as (l & a & Hl & _).
      by exists l, a. }
    assert (∃ lb, extract_adresses_commune (path_name fp_pdf_in) b
                    (commune_maire_of (doc_pages_cont fp_pdf_in fp_txt_in))
                  = (lb, Raised AssertionError)) as [lb Hex].
    { unfold extract_adresses_commune.
      rewrite Hzones, Hsplit, fmap_app, fmap_cons.
      rewrite bool_decide_eq_false_2 by (by destruct before).
      cbn [when negb bind ret]. rewrite Hm. by eexists. }
    destruct (run_fails (path_name fp_pdf_in) fp_pdf_in _ pre b post
                (init_state
                   (scalar_fields (doc_pages_cont fp_pdf_in fp_txt_in)))
                lb AssertionError eq_refl Hpre Hb Hex) as [l Hrun].
    rewrite <- Hbodies in Hrun.
    destruct (parse_arrete_of_run fp_pdf_in fp_txt_in l
                (Raised AssertionError) Htext Hrun) as [l0 Hparse].
    by eexists.
Qed.

End Properties.

(** * The model on documents *)

Section Documents.
Import Toy.

Example run_arrete :
  parse_arrete "pdf/a.pdf" "txt/arrete.txt"
  = (LogWarning (MsgAccuse "txt/arrete.txt" [1] 4) :: log_marseille,
     Returned doc_marseille).
Proof. vm_compute. reflexivity. Qed.

Example run_zones :
  parse_arrete "pdf/a.pdf" "txt/zones.txt" = (log_zones, Returned doc_zones).
Proof. vm_compute. reflexivity. Qed.

Example run_incoherente :
  parse_arrete "pdf/a.pdf" "txt/incoherente.txt"
  = ([], Raised (OtherError "ValueError")).
Proof. vm_compute. reflexivity. Qed.

(** *** C4 on a document of two empty pages *)

Lemma parse_arrete_no_text_witness :
  parse_arrete "pdf/a.pdf" "txt/vide.txt"
  = ([LogWarning (MsgAucunePage "txt/vide.txt")],
     Returned
       {| adresses := [];
          arretes := [ {[ "pdf" := Some "a.pdf"; "url" := Some "pdf/a.pdf" ]} ];
          notifies := [];
          parcelles := [] |}).
Proof.
  apply (parse_arrete_no_text (H := toy) "pdf/a.pdf" "txt/vide.txt").
  vm_compute. repeat constructor.
Defined.

(** *** C1 *)

(** The detector finds nothing on page 1, which has text, and finds
    "peril" on page 2: the order record keeps None, not "peril". *)
Lemma classe_later_detection_not_kept :
  ∃ log d a,
    parse_arrete "pdf/a.pdf" "txt/classe.txt" = (log, Returned d)
    ∧ doc_pages_body "pdf/a.pdf" "txt/classe.txt"
      = ["considerants"; "peril imminent"]
    ∧ get_classe "considerants" = None
    ∧ get_classe "peril imminent" = Some "peril"
    ∧ arretes d = [a]
    ∧ a !! "classe" = Some None
    ∧ a !! "classe" ≠ Some (get_classe "peril imminent").
Proof.
  exists [], doc_sans_mention, arrete_sans_mention.
  repeat split; try (vm_compute; reflexivity).
  vm_compute. discriminate.
Qed.

Lemma classe_family_frozen_by_first_text_page_witness :
  ∃ a, arretes doc_sans_mention = [a]
       ∧ a !! "classe" = Some (get_classe "considerants")
       ∧ a !! "urgence" = Some (get_urgence "considerants")
       ∧ a !! "demo" = Some (get_demo "considerants")
       ∧ a !! "int_hab" = Some (get_int_hab "considerants")
       ∧ a !! "equ_com" = Some (get_equ_com "considerants").
Proof.
  apply (classe_family_frozen_by_first_text_page (H := toy)
           "pdf/a.pdf" "txt/classe.txt" [] doc_sans_mention
           [] "considerants" ["peril imminent"]).
  - vm_compute. reflexivity.
  - vm_compute. reflexivity.
  - vm_compute. reflexivity.
  - constructor.
  - reflexivity.
Defined.

(** *** C3 *)

(** A page with text and no span at all: no scalar field is populated,
    and the order record has the eight page keys, not only [pdf] and
    [url]. *)
Lemma sans_spans_arrete_not_minimal :
  doc_pages_cont "pdf/a.pdf" "txt/sans_spans.txt" = []
  ∧ ∃ log d a,
      parse_arrete "pdf/a.pdf" "txt/sans_spans.txt" = (log, Returned d)
      ∧ arretes d = [a]
      ∧ a !! "classe" = Some None
      ∧ a ≠ {[ "pdf" := Some "a.pdf"; "url" := Some "pdf/a.pdf" ]}.
Proof.
  split; [vm_compute; reflexivity|].
  exists [], doc_sans_mention, arrete_sans_mention.
  repeat split; try (vm_compute; reflexivity).
  intros Heq.
  assert (arrete_sans_mention !! "classe"
          = ({[ "pdf" := Some "a.pdf"; "url" := Some "pdf/a.pdf" ]}
               : gmap string pystr) !! "classe") as Hk
    by (by rewrite Heq).
  vm_compute in Hk. discriminate.
Qed.

Lemma arrete_without_scalar_fields_witness :
  ∃ a, arretes doc_accuses = [a]
       ∧ (existsb nonempty (load_pages_text "txt/accuses.txt") = false
          ∨ Forall (λ b, nonempty b = false)
              (doc_pages_body "pdf/a.pdf" "txt/accuses.txt") →
          a = {[ "pdf" := Some (path_name "pdf/a.pdf");
                 "url" := Some "pdf/a.pdf" ]})
       ∧ (existsb nonempty (load_pages_text "txt/accuses.txt") = true →
          Exists (λ b, nonempty b = true)
            (doc_pages_body "pdf/a.pdf" "txt/accuses.txt") →
          dom a = page_keys
          ∧ a !! "pdf" = Some (Some (path_name "pdf/a.pdf"))
          ∧ a !! "url" = Some (Some "pdf/a.pdf")).
Proof.
  apply (arrete_without_scalar_fields (H := toy)
           "pdf/a.pdf" "txt/accuses.txt"
           [LogWarning (MsgAccuse "txt/accuses.txt" [1; 2] 2)] doc_accuses).
  - vm_compute. reflexivity.
  - vm_compute. constructor.
Defined.

(** *** C6 *)

(** The first [arr_date] span of "txt/arrete.txt" reads "1er mars 2021"; the
    date of the order record is what [process_date_brute] makes of it, not
    the normalized text of the span. *)
Lemma date_is_not_the_normalized_span_text :
  ∃ log d a,
    parse_arrete "pdf/a.pdf" "txt/arrete.txt" = (log, Returned d)
    ∧ arretes d = [a]
    ∧ first_span_txt "arr_date" (doc_pages_cont "pdf/a.pdf" "txt/arrete.txt")
      = Some "1er mars 2021"
    ∧ normalize_string "1er mars 2021" = "1er mars 2021"
    ∧ a !! "date" = Some (Some "01/03/2021")
    ∧ a !! "date" ≠ Some (Some (normalize_string "1er mars 2021")).
Proof.
  eexists _, doc_marseille, arrete_marseille.
  repeat split; try (vm_compute; reflexivity).
  vm_compute. discriminate.
Qed.

Lemma scalar_fields_first_occurrence_witness :
  ∃ a, arretes doc_marseille = [a]
       ∧ a !! "date"
         = (λ t, Some (normalize_string (process_date_brute t)))
             <$> first_span_txt "arr_date"
                   (doc_pages_cont "pdf/a.pdf" "txt/arrete.txt")
       ∧ a !! "num_arr"
         = (λ t, Some (normalize_string t))
             <$> first_span_txt "num_arr"
                   (doc_pages_cont "pdf/a.pdf" "txt/arrete.txt")
       ∧ a !! "nom_arr"
         = (λ t, Some (normalize_string t))
             <$> first_span_txt "nom_arr"
                   (doc_pages_cont "pdf/a.pdf" "txt/arrete.txt")
       ∧ ∀ fp_pdf_in' fp_txt_in' log' d',
           existsb nonempty (load_pages_text fp_txt_in') = true →
           parse_arrete fp_pdf_in' fp_txt_in' = (log', Returned d') →
           doc_pages_cont fp_pdf_in' fp_txt_in'
             = doc_pages_cont "pdf/a.pdf" "txt/arrete.txt" →
           ∃ a', arretes d' = [a']
                 ∧ a' !! "date" = a !! "date"
                 ∧ a' !! "num_arr" = a !! "num_arr"
                 ∧ a' !! "nom_arr" = a !! "nom_arr".
Proof.
  apply (scalar_fields_first_occurrence (H := toy)
           "pdf/a.pdf" "txt/arrete.txt"
           (LogWarning (MsgAccuse "txt/arrete.txt" [1] 4) :: log_marseille)).
  - vm_compute. reflexivity.
  - vm_compute. reflexivity.
Defined.

(** The date of the document is that of the first [arr_date] span, on
    page 2, not that of the later one on page 4. *)
Example date_marseille :
  arrete_marseille !! "date" = Some (Some "01/03/2021")
  ∧ first_span_txt "arr_date" (doc_pages_cont "pdf/a.pdf" "txt/arrete.txt")
    = Some "1er mars 2021".
Proof. split; vm_compute; reflexivity. Qed.

(** *** C2 *)

(** The municipality of the address is outside the known ones:
    [get_codeinsee] raises AssertionError, which is printed and raised
    again, and the document has no result. *)
Lemma lyon_codeinsee_aborts :
  doc_pages_body "pdf/a.pdf" "txt/lyon.txt" = ["hors metropole"]
  ∧ get_adr_doc "hors metropole"
    = [ {| adresse_brute := "5 quai Y 69001 Lyon";
           zone_adresses := [lyon5] |} ]
  ∧ get_codeinsee (Some "Lyon") (Some "69001") = Raised AssertionError
  ∧ parse_arrete "pdf/a.pdf" "txt/lyon.txt" = (log_lyon, Raised AssertionError)
  ∧ ¬ ∃ log d, parse_arrete "pdf/a.pdf" "txt/lyon.txt" = (log, Returned d).
Proof.
  repeat split; try (vm_compute; reflexivity).
  intros (log & d & Hret). vm_compute in Hret. discriminate.
Qed.

Lemma soft_misses_do_not_abort_witness :
  (∃ log d,
     parse_arrete "pdf/a.pdf" "txt/inconnue.txt" = (log, Returned d)
     ∧ Forall (soft_misses_logged (path_name "pdf/a.pdf") log) (adresses d))
  ∧ ∃ log, parse_arrete "pdf/a.pdf" "txt/lyon.txt"
           = (log, Raised AssertionError).
Proof.
  split.
  - apply (proj1 (soft_misses_do_not_abort (H := toy)
                    "pdf/a.pdf" "txt/inconnue.txt")).
    vm_compute. split; [|intros Hno; discriminate Hno].
    repeat constructor. exists None. eexists. split; reflexivity.
  - apply (proj2 (soft_misses_do_not_abort (H := toy)
                    "pdf/a.pdf" "txt/lyon.txt")
             [] "hors metropole" []
             {| adresse_brute := "5 quai Y 69001 Lyon";
                zone_adresses := [lyon5] |} [] [] lyon5 []).
    + vm_compute. reflexivity.
    + vm_compute. reflexivity.
    + constructor.
    + reflexivity.
    + vm_compute. reflexivity.
    + reflexivity.
    + constructor.
    + vm_compute. reflexivity.
Defined.

(** The address without municipality comes out with null fields and the
    three warnings, in the world where [get_codeinsee] raises for Lyon. *)
Example run_inconnue :
  parse_arrete "pdf/a.pdf" "txt/inconnue.txt"
  = (log_inconnue, Returned doc_inconnue).
Proof. vm_compute. reflexivity. Qed.

(** *** C5 *)


(** *** C7 *)

Lemma coherence_failure_aborts_witness :
  (∃ l, extract_adresses_commune (path_name "pdf/a.pdf") "incoherente"
          (commune_maire_of (doc_pages_cont "pdf/a.pdf" "txt/incoherente.txt"))
        = (l, Raised (OtherError "ValueError")))
  ∧ ∃ log, parse_arrete "pdf/a.pdf" "txt/incoherente.txt"
           = (log, Raised (OtherError "ValueError")).
Proof.
  apply (coherence_failure_aborts (H := toy)
           "pdf/a.pdf" "txt/incoherente.txt"
           ["considerants"] "incoherente" ["adresse"]
           {| adresse_brute := "9 rue V 99999 Marseille";
              zone_adresses := [incoherente9] |} []
           [] incoherente9 []).
  - vm_compute. reflexivity.
  - vm_compute. reflexivity.
  - repeat constructor.
  - reflexivity.
  - vm_compute. reflexivity.
  - reflexivity.
  - constructor.
  - exists (Some "13201"). vm_compute. split; reflexivity.
Defined.

(** *** C8 *)

(** The owner is detected on pages 2 and 4 with two spellings of one
    normalized string: the set of owners has one entry. *)
Lemma notifies_sets_deduplicate_witness :
  Forall (λ '(get, acc),
    acc state_marseille
    = list_to_set (detections get (doc_pages_body "pdf/a.pdf" "txt/arrete.txt"))
    ∧ ∀ i j bi bj vi vj,
        i ≠ j →
        doc_pages_body "pdf/a.pdf" "txt/arrete.txt" !! i = Some bi →
        doc_pages_body "pdf/a.pdf" "txt/arrete.txt" !! j = Some bj →
        nonempty bi = true → nonempty bj = true →
        get bi = Some vi → get bj = Some vj →
        normalize_string vi = normalize_string vj →
        entries (normalize_string vi) (acc state_marseille) = 1)
    accumulators
  ∧ (existsb nonempty (load_pages_text "txt/arrete.txt") = true →
     parse_arrete "pdf/a.pdf" "txt/arrete.txt"
     = (LogWarning (MsgAccuse "txt/arrete.txt" [1] 4) :: log_marseille,
        Returned (finalize (path_name "pdf/a.pdf") "pdf/a.pdf"
                    state_marseille))).
Proof.
  apply (notifies_sets_deduplicate (H := toy) "pdf/a.pdf" "txt/arrete.txt").
  vm_compute. reflexivity.
Defined.

Example proprios_marseille :
  doc_pages_body "pdf/a.pdf" "txt/arrete.txt"
  = [""; "entete"; "adresse"; "suite"]
  ∧ get_proprio "entete" = Some "M. DUPONT"
  ∧ get_proprio "suite" = Some "m. dupont"
  ∧ normalize_string "M. DUPONT" = normalize_string "m. dupont"
  ∧ elements (st_proprios state_marseille) = ["M. Dupont"]
  ∧ entries "M. Dupont" (st_proprios state_marseille) = 1.
Proof. repeat split; vm_compute; reflexivity. Qed.

(** *** C9 *)

Lemma notifies_single_record_witness :
  ∃ n, notifies doc_zones = [n]
       ∧ notifie_codeinsee n = (a ← head (adresses doc_zones); codeinsee a)
       ∧ (Forall (λ b, nonempty b = true → get_proprio b = None)
            (doc_pages_body "pdf/a.pdf" "txt/zones.txt") →
          id_proprio n = None)
       ∧ (Forall (λ b, nonempty b = true → get_syndic b = None)
            (doc_pages_body "pdf/a.pdf" "txt/zones.txt") →
          id_syndic n = None)
       ∧ (Forall (λ b, nonempty b = true → get_gest b = None)
            (doc_pages_body "pdf/a.pdf" "txt/zones.txt") →
          id_gest n = None).
Proof.
  apply (notifies_single_record (H := toy)
           "pdf/a.pdf" "txt/zones.txt" log_zones).
  - vm_compute. reflexivity.
  - vm_compute. reflexivity.
Defined.

(** *** C10 *)

(** The parcel of page 2 is normalized before any address is known, with
    None for both codes, and its row still carries the code of the first
    address, found on page 3. *)
Lemma parcelles_tagged_with_final_codeinsee_witness :
  Forall (λ p, parcelle_codeinsee p
               = (a ← head (adresses doc_marseille); codeinsee a))
    (parcelles doc_marseille)
  ∧ ∀ pre b post s,
      doc_pages_body "pdf/a.pdf" "txt/arrete.txt" = pre ++ b :: post →
      Forall (λ p, nonempty p = true → no_adresse_on p) (pre ++ [b]) →
      nonempty b = true → get_parcelle b = Some s → nonempty s = true →
      {| ref_cad :=
           generate_refcadastrale_norm None s (path_name "pdf/a.pdf") None;
         parcelle_codeinsee :=
           a ← head (adresses doc_marseille); codeinsee a |}
        ∈ parcelles doc_marseille.
Proof.
  apply (parcelles_tagged_with_final_codeinsee (H := toy)
           "pdf/a.pdf" "txt/arrete.txt"
           (LogWarning (MsgAccuse "txt/arrete.txt" [1] 4) :: log_marseille)).
  - vm_compute. reflexivity.
  - vm_compute. reflexivity.
Defined.

Example parcelle_marseille :
  generate_refcadastrale_norm None "205 A 12" "a.pdf" None = "????? 205 A 12"
  ∧ {| ref_cad := "????? 205 A 12"; parcelle_codeinsee := Some "13201" |}
    ∈ parcelles doc_marseille.
Proof. split; [reflexivity|]. vm_compute. repeat constructor. Qed.

End Documents.

(** * Other properties of the module *)

Section MoreProperties.
Context `{Collaborators}.

(** ** The acknowledgment pages *)

Lemma enumerate_lookup {A} (n : nat) (l : list A) (i : nat) :
  enumerate n l !! i = (λ x, ((n + i)%nat, x)) <$> l !! i.
Proof.
  revert n i. induction l as [|x l IH]; intros n [|i]; simpl; try done.
  - by rewrite Nat.add_0_r.
  - rewrite IH. by rewrite Nat.add_succ_comm.
Qed.

Lemma elem_of_enumerate {A} (n : nat) (l : list A) (i : nat) x :
  (i, x) ∈ enumerate n l ↔ (n ≤ i)%nat ∧ l !! (i - n)%nat = Some x.
Proof.
  rewrite list_elem_of_lookup. split.
  - intros [j Hj]. rewrite enumerate_lookup in Hj.
    destruct (l !! j) as [y|] eqn:Hy; [|done].
    injection Hj as <- <-. split; [lia|].
    by replace (n + j - n)%nat with j by lia.
  - intros [Hle Hx]. exists (i - n)%nat. rewrite enumerate_lookup, Hx. simpl.
    do 2 f_equal. lia.
Qed.

Lemma enumerate_fst_sorted {A} (n : nat) (l : list A) :
  StronglySorted lt (fst <$> enumerate n l).
Proof.
  revert n. induction l as [|x l IH]; intros n; simpl; constructor.
  - apply IH.
  - apply list.Forall_forall. intros i Hi.
    apply list_elem_of_fmap in Hi as ([j y] & -> & Hj).
    apply elem_of_enumerate in Hj as [Hle _]. simpl. lia.
Qed.

Lemma filter_fst_sorted {A} (f : nat * A → bool) (l : list (nat * A)) :
  StronglySorted lt (fst <$> l) →
  StronglySorted lt (fst <$> List.filter f l).
Proof.
  induction l as [|x l IH]; simpl; [done|]. intros Hs.
  apply StronglySorted_inv in Hs as [Hs Hall].
  destruct (f x); simpl; [|by apply IH]. constructor; [by apply IH|].
  apply list.Forall_forall. intros i Hi.
  apply list_elem_of_fmap in Hi as (y & -> & Hy).
  apply list_elem_of_In, filter_In in Hy as [Hy _].
  rewrite list.Forall_forall in Hall. apply Hall.
  by apply list_elem_of_fmap_2, list_elem_of_In.
Qed.

Lemma pages_ar_of_elem (pages : list string) (i : nat) :
  i ∈ pages_ar_of pages
  ↔ (1 ≤ i)%nat
    ∧ ∃ x, pages !! (i - 1)%nat = Some x ∧ P_ACCUSE_match x = true.
Proof.
  unfold pages_ar_of. rewrite list_elem_of_fmap. split.
  - intros ([j x] & -> & Hjx).
    apply list_elem_of_In, filter_In in Hjx as [Hjx Hm].
    apply list_elem_of_In, elem_of_enumerate in Hjx as [Hle Hx].
    simpl in *. eauto.
  - intros (Hle & x & Hx & Hm). exists (i, x). split; [done|].
    apply list_elem_of_In, filter_In. split; [|done].
    apply list_elem_of_In, elem_of_enumerate. done.
Qed.

(** X1: [pages_ar] lists, in increasing order, exactly the page numbers
    (counted from 1) of the pages that match the acknowledgment pattern. *)
Theorem pages_ar_of_spec (pages : list string) :
  StronglySorted lt (pages_ar_of pages)
  ∧ ∀ i : nat,
      i ∈ pages_ar_of pages
      ↔ (1 ≤ i)%nat
        ∧ ∃ x, pages !! (i - 1)%nat = Some x ∧ P_ACCUSE_match x = true.
Proof.
  split; [|apply pages_ar_of_elem].
  unfold pages_ar_of. apply filter_fst_sorted, enumerate_fst_sorted.
Qed.

(** X2: the filtered pages are the pages of the document in the same
    order and number, where each page that matches the acknowledgment
    pattern, and no other, is replaced by the empty string. *)
Theorem filt_pages_of_spec (pages : list string) :
  filt_pages_of (pages_ar_of pages) pages = blank_accuse <$> pages.
Proof.
  apply list_eq. intros i. unfold filt_pages_of.
  rewrite !list_lookup_fmap, enumerate_lookup.
  destruct (pages !! i) as [x|] eqn:Hx; [|done]. simpl. f_equal.
  unfold blank_accuse. destruct (P_ACCUSE_match x) eqn:Hm.
  - rewrite bool_decide_eq_true_2; [done|].
    apply pages_ar_of_elem. split; [lia|]. exists x.
    by replace (S i - 1)%nat with i by lia.
  - rewrite bool_decide_eq_false_2; [done|].
    intros Hin. apply pages_ar_of_elem in Hin as (_ & y & Hy & Hmy).
    replace (S i - 1)%nat with i in Hy by lia. congruence.
Qed.

(** ** The order record *)

Lemma page_step_arretes_codeinsee fn_pdf fp_pdf_in hint st b l st' :
  nonempty b = true →
  page_step fn_pdf fp_pdf_in hint st b = (l, Returned st') →
  st_arretes st' =
    st_arretes st ∪ arrete_page_fields fn_pdf fp_pdf_in b (st_codeinsee st').
Proof.
  intros Hb Hstep.
  apply page_step_Returned in Hstep as (st1 & Hadr & ->); [|done].
  apply step_adresses_Returned in Hadr as (Harr & _).
  rewrite (proj1 (proj2 (step_parcelles_codes _ _ _))). simpl.
  by rewrite step_parcelles_arretes, step_notifies_arretes,
    step_arrete_union, Harr.
Qed.

(** X3: the [codeinsee] of the order record is the one known at the end
    of the address step of the first page with text: None when that page
    gives no address, whatever later pages resolve, and the code of the
    first address when that page gives addresses. *)
Theorem arrete_codeinsee_of_first_text_page
    fp_pdf_in fp_txt_in log d pre b post :
  existsb nonempty (load_pages_text fp_txt_in) = true →
  parse_arrete fp_pdf_in fp_txt_in = (log, Returned d) →
  doc_pages_body fp_pdf_in fp_txt_in = pre ++ b :: post →
  Forall (λ p, nonempty p = false) pre →
  nonempty b = true →
  ∃ a, arretes d = [a]
       ∧ (no_adresse_on b → a !! "codeinsee" = Some None)
       ∧ ∀ lb a0 rest,
           extract_adresses_commune (path_name fp_pdf_in) b
             (commune_maire_of (doc_pages_cont fp_pdf_in fp_txt_in))
           = (lb, Returned (a0 :: rest)) →
           a !! "codeinsee" = Some (codeinsee a0).
Proof.
  intros Htext Hret Hbodies Hpre Hb.
  apply parse_arrete_Returned in Hret as (l0 & l1 & st & Hrun & -> & _);
    [|done].
  unfold doc_run in Hrun. rewrite Hbodies in Hrun.
  apply foldM_app_Returned in Hrun as (l2 & s0 & l3 & Hrun0 & Hrun & _).
  rewrite run_empty_pages in Hrun0 by done. injection Hrun0 as _ <-.
  apply foldM_cons_Returned in Hrun as (l4 & s1 & l5 & Hstep & Hrun & _).
  pose proof (page_step_arretes_codeinsee _ _ _ _ _ _ _ Hb Hstep) as Harr.
  assert (st_arretes st !! "codeinsee" = Some (st_codeinsee s1)) as Hci.
  { eapply run_arretes_mono; [exact Hrun|]. rewrite Harr.
    apply lookup_union_Some_raw. right.
    split; [by apply scalar_fields_lookup_other|done]. }
  exists (st_arretes st).
  split; [by eapply finalize_arretes_set|]. rewrite Hci.
  apply page_step_text in Hstep as (st1 & Hadr & _ & -> & _); [|done].
  apply step_adresses_Returned in Hadr
    as (_ & _ & _ & _ & _ & [(Hne & _)|[(_ & Hex & ->)|
         (_ & a & rest & Hex & _ & -> & _)]]); [done| |].
  - split; [done|]. intros lb a0 rest Hex'. congruence.
  - split.
    + intros Hno.
      destruct (extract_no_adresse (path_name fp_pdf_in) b
                  (commune_maire_of (doc_pages_cont fp_pdf_in fp_txt_in)) Hno)
        as [l' Hl'].
      congruence.
    + intros lb a0 rest' Hex'. congruence.
Qed.

Lemma scalar_fields_dom pages_cont :
  dom (scalar_fields pages_cont) ⊆ list_to_set [ "date"; "num_arr"; "nom_arr" ].
Proof.
  intros k Hk. apply elem_of_dom in Hk as [v Hv].
  destruct (decide (k = "date")) as [->|?]; [set_solver|].
  destruct (decide (k = "num_arr")) as [->|?]; [set_solver|].
  destruct (decide (k = "nom_arr")) as [->|?]; [set_solver|].
  by rewrite scalar_fields_lookup_other in Hv.
Qed.

Lemma run_arretes_keys fn_pdf fp_pdf_in hint bodies st l st' :
  dom (st_arretes st) ⊆ arrete_keys →
  foldM (page_step fn_pdf fp_pdf_in hint) st bodies = (l, Returned st') →
  dom (st_arretes st') ⊆ arrete_keys.
Proof.
  intros Hst Hrun.
  eapply (foldM_invariant _ (λ s, dom (st_arretes s) ⊆ arrete_keys));
    [|exact Hst|exact Hrun].
  intros s b l0 s0 _ Hs Hstep. destruct (nonempty b) eqn:Hb.
  - eapply page_step_arretes in Hstep as [ci ->]; [|done].
    rewrite dom_union_L, arrete_page_fields_dom. unfold arrete_keys in *.
    set_solver.
  - rewrite page_step_empty in Hstep by done. by injection Hstep as _ <-.
Qed.

(** Exactly one order record, with keys of the schema. *)
Lemma order_record_keys fp_pdf_in fp_txt_in log d :
  parse_arrete fp_pdf_in fp_txt_in = (log, Returned d) →
  ∃ a, arretes d = [a] ∧ dom a ⊆ arrete_keys.
Proof.
  intros Hret.
  assert (dom (minimal_arrete (path_name fp_pdf_in) fp_pdf_in) ⊆ arrete_keys)
    as Hmdom.
  { unfold minimal_arrete. rewrite !dom_insert_L, dom_empty_L.
    unfold arrete_keys, page_keys. set_solver. }
  destruct (existsb nonempty (load_pages_text fp_txt_in)) eqn:Htext.
  - apply parse_arrete_Returned in Hret as (l0 & l1 & st & Hrun & -> & _);
      [|done].
    unfold doc_run in Hrun. unfold finalize. simpl.
    case_decide as Hemp; eexists; (split; [done|]); [done|].
    eapply run_arretes_keys; [|exact Hrun]. simpl.
    pose proof (scalar_fields_dom (doc_pages_cont fp_pdf_in fp_txt_in)).
    unfold arrete_keys. set_solver.
  - unfold parse_arrete in Hret. rewrite Htext in Hret. simpl in Hret.
    injection Hret as _ <-. simpl. by eexists.
Qed.

(** X4: [parse_arrete], when it returns, returns exactly one order
    record, whose keys are among the three scalar keys and the eight page
    keys. The record has the file name and the source reference, except
    in one case: when a span gave a scalar field while no classified page
    has text, the record is the scalar fields alone, without [pdf] nor
    [url]. *)
Theorem order_record_shape fp_pdf_in fp_txt_in log d :
  parse_arrete fp_pdf_in fp_txt_in = (log, Returned d) →
  ∃ a, arretes d = [a]
       ∧ dom a ⊆ arrete_keys
       ∧ (existsb nonempty (load_pages_text fp_txt_in) = false
          ∨ Exists (λ b, nonempty b = true)
              (doc_pages_body fp_pdf_in fp_txt_in)
          ∨ scalar_fields (doc_pages_cont fp_pdf_in fp_txt_in) = ∅ →
          a !! "pdf" = Some (Some (path_name fp_pdf_in))
          ∧ a !! "url" = Some (Some fp_pdf_in))
       ∧ (existsb nonempty (load_pages_text fp_txt_in) = true →
          Forall (λ b, nonempty b = false)
            (doc_pages_body fp_pdf_in fp_txt_in) →
          scalar_fields (doc_pages_cont fp_pdf_in fp_txt_in) ≠ ∅ →
          a = scalar_fields (doc_pages_cont fp_pdf_in fp_txt_in)
          ∧ a !! "pdf" = None ∧ a !! "url" = None).
Proof.
  intros Hret.
  assert (dom (minimal_arrete (path_name fp_pdf_in) fp_pdf_in) ⊆ arrete_keys
          ∧ minimal_arrete (path_name fp_pdf_in) fp_pdf_in !! "pdf"
            = Some (Some (path_name fp_pdf_in))
          ∧ minimal_arrete (path_name fp_pdf_in) fp_pdf_in !! "url"
            = Some (Some fp_pdf_in)) as (Hmdom & Hmpdf & Hmurl).
  { unfold minimal_arrete. rewrite !dom_insert_L, dom_empty_L.
    split; [unfold arrete_keys, page_keys; set_solver|].
    split; [by rewrite lookup_insert_ne, lookup_insert_eq|].
    by rewrite lookup_insert_eq. }
  destruct (existsb nonempty (load_pages_text fp_txt_in)) eqn:Htext.
  - apply parse_arrete_Returned in Hret as (l0 & l1 & st & Hrun & -> & _);
      [|done].
    unfold doc_run in Hrun.
    assert (dom (st_arretes st) ⊆ arrete_keys) as Hdom.
    { eapply run_arretes_keys; [|exact Hrun]. simpl.
      pose proof (scalar_fields_dom (doc_pages_cont fp_pdf_in fp_txt_in)).
      unfold arrete_keys. set_solver. }
    destruct (decide (Forall (λ b, nonempty b = false)
                        (doc_pages_body fp_pdf_in fp_txt_in)))
      as [Hall|Hsome].
    + rewrite run_empty_pages in Hrun by done. injection Hrun as _ <-.
      unfold finalize. simpl. case_decide as Hemp; eexists; (split; [done|]).
      * split; [done|]. split; [done|]. by intros _ _ ?.
      * split; [done|]. split.
        { intros [?|[Hex|?]]; [done| |done].
          apply list.Exists_exists in Hex as (b & Hin & Hb).
          rewrite list.Forall_forall in Hall. apply Hall in Hin. congruence. }
        intros _ _ _. split; [done|].
        split; apply scalar_fields_lookup_other; done.
    + apply not_Forall_Exists in Hsome; [|apply _].
      assert (Exists (λ b, nonempty b = true)
                (doc_pages_body fp_pdf_in fp_txt_in)) as Hex.
      { eapply list.Exists_impl; [exact Hsome|]. simpl. intros b.
        by destruct (nonempty b). }
      destruct (first_text_page _ Hex)
        as (pre & b & post & Hbodies & Hpre & Hb).
      rewrite Hbodies in Hrun.
      apply run_first_text_page in Hrun as (ci & st1 & l2 & Harr & Hrun);
        [|done..].
      assert (∀ k v, k ≠ "date" → k ≠ "num_arr" → k ≠ "nom_arr" →
                arrete_page_fields (path_name fp_pdf_in) fp_pdf_in b ci !! k
                  = Some v →
                st_arretes st !! k = Some v) as Hkeep.
      { intros k v ? ? ? Hk. eapply run_arretes_mono; [exact Hrun|].
        rewrite Harr. apply lookup_union_Some_raw. right.
        by rewrite scalar_fields_lookup_other. }
      exists (st_arretes st).
      split; [by eapply (finalize_arretes_set _ _ _ "pdf"), Hkeep|].
      split; [done|]. split; [intros _; split; by apply Hkeep|].
      intros _ Hall. rewrite Hbodies in Hall.
      apply Forall_app in Hall as [_ Hall]. apply Forall_inv in Hall.
      congruence.
  - unfold parse_arrete in Hret. rewrite Htext in Hret. simpl in Hret.
    injection Hret as _ <-. simpl. eexists. split; [done|].
    split; [done|]. split; [done|]. by intros ?.
Qed.


(** ** The parcels *)

Lemma page_step_parcelles_source fn_pdf fp_pdf_in hint bodies st b l st' :
  b ∈ bodies →
  codes_of_first_adresse st →
  (∀ r, r ∈ st_parcelles st →
        parcelle_source fn_pdf bodies (head (st_adresses st)) r) →
  page_step fn_pdf fp_pdf_in hint st b = (l, Returned st') →
  ∀ r, r ∈ st_parcelles st' →
       parcelle_source fn_pdf bodies (head (st_adresses st')) r.
Proof.
  intros Hin Hcodes Hst Hstep.
  pose proof (page_step_codes _ _ _ _ _ _ _ Hcodes Hstep) as [Hci' Hcp'].
  destruct (nonempty b) eqn:Hb.
  2: { rewrite page_step_empty in Hstep by done. by injection Hstep as _ <-. }
  apply page_step_text in Hstep as (st1 & Hadr & Ha & Hci & Hcp & Hpar);
    [|done].
  intros r Hr. rewrite Hpar in Hr. apply elem_of_union in Hr as [Hr|Hr].
  - destruct (Hst r Hr) as (b0 & s0 & Hb0 & Hne & Hs0 & Hne0 & Hsrc).
    exists b0, s0. do 4 (split; [done|]).
    destruct Hsrc as [->|(a0 & Hhead & ->)]; [by left|].
    right. exists a0. split; [|done]. rewrite Ha.
    apply step_adresses_Returned in Hadr
      as (_ & _ & _ & _ & _ & [(_ & _ & ->)|[(_ & _ & ->)|(Hnil & _)]]);
      [done|done|].
    by rewrite Hnil in Hhead.
  - unfold page_parcelles in Hr.
    destruct (get_parcelle b) as [s0|] eqn:Hs0; [|set_solver].
    destruct (nonempty s0) eqn:Hne0; [|set_solver].
    apply elem_of_singleton in Hr as ->.
    exists b, s0. do 4 (split; [done|]).
    rewrite <- Hci, <- Hcp, Hci', Hcp'.
    destruct (head (st_adresses st')) as [a0|]; simpl; [|by left].
    right. by exists a0.
Qed.

(** X5: the parcel rows of a document have pairwise different
    references, and each reference is the normalization of a non-empty
    parcel string found on a page with text, made either without codes or
    with the INSEE and postal codes of the first address; a document in
    which no page gives a parcel string has no parcel row. *)
Theorem parcelles_distinct_and_sourced fp_pdf_in fp_txt_in log d :
  existsb nonempty (load_pages_text fp_txt_in) = true →
  parse_arrete fp_pdf_in fp_txt_in = (log, Returned d) →
  NoDup (ref_cad <$> parcelles d)
  ∧ Forall (λ p, parcelle_source (path_name fp_pdf_in)
                   (doc_pages_body fp_pdf_in fp_txt_in)
                   (head (adresses d)) (ref_cad p))
      (parcelles d).
Proof.
  intros Htext Hret.
  apply parse_arrete_Returned in Hret as (l0 & l1 & st & Hrun & -> & _);
    [|done].
  simpl. split.
  { assert (∀ (ci : pystr) (l : list string),
              ref_cad <$> ((λ x, {| ref_cad := x; parcelle_codeinsee := ci |})
                             <$> l) = l) as ->.
    { intros ci l. induction l as [|x l IH]; [done|]. simpl. by f_equal. }
    apply NoDup_elements. }
  unfold doc_run in Hrun.
  assert (codes_of_first_adresse st
          ∧ ∀ r, r ∈ st_parcelles st →
                 parcelle_source (path_name fp_pdf_in)
                   (doc_pages_body fp_pdf_in fp_txt_in)
                   (head (st_adresses st)) r) as [_ Hsrc].
  { eapply (foldM_invariant _
              (λ s, codes_of_first_adresse s
                    ∧ ∀ r, r ∈ st_parcelles s →
                           parcelle_source (path_name fp_pdf_in)
                             (doc_pages_body fp_pdf_in fp_txt_in)
                             (head (st_adresses s)) r));
      only 3: exact Hrun.
    - intros s b l s' Hin [Hcodes Hs] Hstep. split.
      + by eapply page_step_codes.
      + by eapply page_step_parcelles_source.
    - split; [split; reflexivity|simpl; set_solver]. }
  apply list.Forall_forall. intros p Hp.
  apply list_elem_of_fmap in Hp as (r & -> & Hr). simpl.
  by apply Hsrc, elem_of_elements.
Qed.

(** ** The ids of the notified parties *)

Lemma set_first_elem_of (s : gset string) x : set_first s = Some x → x ∈ s.
Proof.
  unfold set_first. intros Hx. apply elem_of_elements.
  destruct (elements s) as [|y l]; [done|]. injection Hx as ->. by left.
Qed.

Lemma set_first_is_Some (s : gset string) : s ≠ ∅ → is_Some (set_first s).
Proof.
  unfold set_first. intros Hs.
  destruct (elements s) as [|y l] eqn:He; [|by eexists].
  by apply elements_empty_inv, leibniz_equiv in He.
Qed.

Lemma set_first_of_list (l : list string) :
  (∀ x, set_first (list_to_set l) = Some x → x ∈ l)
  ∧ (l ≠ [] → is_Some (set_first (list_to_set l))).
Proof.
  split.
  - intros x Hx. apply set_first_elem_of in Hx. set_solver.
  - intros Hl. apply set_first_is_Some. destruct l as [|y l]; [done|].
    set_solver.
Qed.

(** X6: each id of the notified-parties record is one of the normalized
    detections of its detector on the pages with text, and it is not None
    as soon as the detector found something on such a page; so when all
    the detections of a detector normalize to the same string, the id is
    that string, whatever the iteration order of the set. *)
Theorem notifie_ids_are_detections fp_pdf_in fp_txt_in log d :
  existsb nonempty (load_pages_text fp_txt_in) = true →
  parse_arrete fp_pdf_in fp_txt_in = (log, Returned d) →
  ∃ n, notifies d = [n]
       ∧ Forall (λ '(get, id),
           (∀ x, id n = Some x →
                 x ∈ detections get (doc_pages_body fp_pdf_in fp_txt_in))
           ∧ (detections get (doc_pages_body fp_pdf_in fp_txt_in) ≠ [] →
              is_Some (id n))
           ∧ ∀ x, detections get (doc_pages_body fp_pdf_in fp_txt_in) ≠ [] →
                  Forall (λ y, y = x)
                    (detections get (doc_pages_body fp_pdf_in fp_txt_in)) →
                  id n = Some x)
           [ (get_proprio, id_proprio); (get_syndic, id_syndic);
             (get_gest, id_gest) ].
Proof.
  intros Htext Hret.
  apply parse_arrete_Returned in Hret as (l0 & l1 & st & Hrun & -> & _);
    [|done].
  eexists. split; [done|]. simpl.
  unfold doc_run in Hrun. apply run_notifies in Hrun as (-> & -> & ->).
  simpl. rewrite !(left_id_L ∅ (∪)).
  assert (∀ l : list string,
            (∀ x, set_first (list_to_set l) = Some x → x ∈ l)
            ∧ (l ≠ [] → is_Some (set_first (list_to_set l)))
            ∧ ∀ x, l ≠ [] → Forall (λ y, y = x) l →
                   set_first (list_to_set l) = Some x) as Hall.
  { intros l. destruct (set_first_of_list l) as [Hin Hsome].
    split; [done|]. split; [done|]. intros x Hl Hx.
    destruct (Hsome Hl) as [y Hy]. rewrite Hy. f_equal.
    rewrite list.Forall_forall in Hx. by apply Hx, Hin. }
  repeat constructor; apply Hall.
Qed.

(** ** Pages without text *)

(** X15: the pages whose body is empty take no part in the page loop of a
    document: the loop over all the bodies is the loop over the bodies that
    have text, in the same order, with the same log and the same result,
    whether it returns or raises. *)
Theorem doc_run_skips_empty_pages fp_pdf_in fp_txt_in :
  doc_run fp_pdf_in fp_txt_in
  = foldM (page_step (path_name fp_pdf_in) fp_pdf_in
             (commune_maire_of (doc_pages_cont fp_pdf_in fp_txt_in)))
          (init_state (scalar_fields (doc_pages_cont fp_pdf_in fp_txt_in)))
          (List.filter nonempty (doc_pages_body fp_pdf_in fp_txt_in)).
Proof.
  unfold doc_run.
  generalize (init_state (scalar_fields (doc_pages_cont fp_pdf_in fp_txt_in))).
  induction (doc_pages_body fp_pdf_in fp_txt_in) as [|b bodies IH];
    intros st; [done|].
  cbn [foldM List.filter]. destruct (nonempty b) eqn:Hb.
  - cbn [foldM].
    destruct (page_step _ _ _ st b) as [l [st'|e]]; [|done].
    cbn [bind]. by rewrite IH.
  - rewrite page_step_empty by done. rewrite bind_ret_l. apply IH.
Qed.

(** ** The resolution of the addresses *)

Lemma resolve_adresse_Returned fn_pdf hint zone_brute x l a :
  resolve_adresse fn_pdf hint (adresse_of_fields zone_brute x)
    = (l, Returned a) →
  resolved_from hint zone_brute x a.
Proof.
  unfold resolve_adresse.
  set (a1 := set_ville _ _). intros Hrun.
  apply bind_Returned in Hrun as (l1 & [] & l2 & _ & Hrun & _).
  apply bind_Returned in Hrun as (l3 & ci & l4 & Hci & Hrun & _).
  apply bind_Returned in Hrun as (l5 & [] & l6 & _ & Hrun & _).
  apply bind_Returned in Hrun as (l7 & a2 & l8 & Hfill & Hrun & _).
  unfold try_get_codeinsee in Hci.
  destruct (get_codeinsee (ville a1) (cpostal a1)) as [c|e] eqn:Hget.
  2: { destruct e; simpl in Hci; discriminate. }
  injection Hci as _ ->.
  destruct (fill_cpostal_Returned fn_pdf ci a1) as [l' Hfill'].
  rewrite Hfill' in Hfill. injection Hfill as _ <-.
  destruct (create_adresse_normalisee _ _ _ _ _ _) as [s|e] eqn:Hcreate;
    [|discriminate].
  injection Hrun as _ <-.
  unfold resolved_from, with_cpostal in *. subst a1. simpl in *.
  destruct (truthy (adr_cpostal x)) eqn:Hcp; simpl in *;
    repeat split; try done; by exists s.
Qed.

(** X7: when [extract_adresses_commune] returns on a page that has an
    address zone, it returns one address per decomposed address of the
    first zone, in the same order. Each keeps the raw text of the zone and
    its number, index, street and complement; its municipality is what
    [determine_commune] makes of its own municipality and the hint; its
    INSEE code is what [get_codeinsee] returns for that municipality and
    the postal code as detected; a postal code that was detected is kept,
    and one that was not is what [get_codepostal] gives; and its address
    string is built from these final fields. *)
Theorem extract_adresses_commune_resolved
    fn_pdf pg_txt_body commune_maire adr0 zones l r :
  get_adr_doc pg_txt_body = adr0 :: zones →
  extract_adresses_commune fn_pdf pg_txt_body commune_maire = (l, Returned r) →
  Forall2 (resolved_from commune_maire (adresse_brute adr0))
    (zone_adresses adr0) r.
Proof.
  intros Hzones Hrun.
  eapply extract_Returned in Hrun; [|done].
  eapply list.Forall2_impl; [exact Hrun|]. simpl.
  intros x a [la Hla]. by eapply resolve_adresse_Returned.
Qed.

Lemma commune_maire_of_first pages_cont :
  commune_maire_of pages_cont
  = normalize_string <$> first_span_txt "adr_ville" pages_cont.
Proof.
  rewrite <- spans_of_type_first. unfold commune_maire_of.
  by destruct (spans_of_type "adr_ville" pages_cont).
Qed.

(** X8: the addresses a document returns are either none, or the
    resolution, address by address, of the first zone of one page with
    text; the municipality hint used for all of them is the normalized
    text of the first [adr_ville] span of the classified sequence, or None
    when there is no such span. *)
Theorem adresses_resolved_with_first_commune fp_pdf_in fp_txt_in log d :
  existsb nonempty (load_pages_text fp_txt_in) = true →
  parse_arrete fp_pdf_in fp_txt_in = (log, Returned d) →
  adresses d = []
  ∨ ∃ b adr0 zones,
      b ∈ doc_pages_body fp_pdf_in fp_txt_in
      ∧ nonempty b = true
      ∧ get_adr_doc b = adr0 :: zones
      ∧ Forall2
          (resolved_from
             (normalize_string
                <$> first_span_txt "adr_ville"
                      (doc_pages_cont fp_pdf_in fp_txt_in))
             (adresse_brute adr0))
          (zone_adresses adr0) (adresses d).
Proof.
  intros Htext Hret.
  apply parse_arrete_Returned in Hret as (l0 & l1 & st & Hrun & -> & _);
    [|done].
  simpl. unfold doc_run in Hrun.
  apply run_from_no_adresse in Hrun; [|done].
  destruct Hrun
    as [(Ha & _)|(pre & b & post & adr0 & zones & a & rest & Hbodies & _
                  & Hb & Hzones & Ha & Hall & _)].
  { by left. }
  right. exists b, adr0, zones. rewrite Hbodies, Ha.
  split; [set_solver|]. do 2 (split; [done|]).
  rewrite <- commune_maire_of_first.
  eapply list.Forall2_impl; [exact Hall|]. simpl.
  intros x a' [la Hla]. by eapply resolve_adresse_Returned.
Qed.

(** ** The exceptions of [get_codeinsee] *)

Lemma resolve_adresse_codeinsee_raises fn_pdf hint a0 e :
  let a1 := set_ville (determine_commune (ville a0) hint) a0 in
  get_codeinsee (ville a1) (cpostal a1) = Raised e →
  resolve_adresse fn_pdf hint a0
  = (codeinsee_failure_log fn_pdf a1 e, Raised e).
Proof.
  intros a1 Hget. unfold resolve_adresse, codeinsee_failure_log.
  fold a1. unfold try_get_codeinsee. rewrite Hget.
  destruct (truthy (ville a1)), e; reflexivity.
Qed.

Lemma mapM_Raised_suffix {A B} (f : A → M B) before x after lx e :
  Forall (λ y, ∃ ly z, f y = (ly, Returned z)) before →
  f x = (lx, Raised e) →
  ∃ l, mapM f (before ++ x :: after) = (l ++ lx, Raised e).
Proof.
  intros Hbefore Hx. induction Hbefore as [|y before (ly & z & Hy) _ [l IH]].
  - simpl. rewrite Hx. by exists [].
  - simpl. rewrite Hy. simpl. rewrite IH. exists (ly ++ l). simpl.
    by rewrite (assoc_L (++)).
Qed.

Lemma run_fails_suffix fn_pdf fp_pdf_in hint pre b post st lb e :
  st_adresses st = [] →
  Forall (λ p, nonempty p = true → no_adresse_on p) pre →
  nonempty b = true →
  extract_adresses_commune fn_pdf b hint = (lb, Raised e) →
  ∃ l, foldM (page_step fn_pdf fp_pdf_in hint) st (pre ++ b :: post)
       = (l ++ lb, Raised e).
Proof.
  intros Hst Hpre Hb Hex. rewrite foldM_app.
  destruct (run_no_adresse_total fn_pdf fp_pdf_in hint pre st Hpre Hst)
    as (l1 & s1 & -> & Hs1).
  simpl. unfold page_step at 1. rewrite Hb. unfold step_adresses.
  rewrite Hs1, Hex. simpl. by exists l1.
Qed.

(** X9: when [get_codeinsee] raises on an address of the zone the
    document reaches, the same exception leaves [parse_arrete], and
    [create_adresse_normalisee] is not called for that address. If the
    exception is an AssertionError, the last two things logged are the two
    printed lines (the arguments of the call, then the address); any other
    exception is printed by nothing. *)
Theorem codeinsee_failure_aborts
    fp_pdf_in fp_txt_in pre b post adr0 zones before x after e :
  let fn_pdf := path_name fp_pdf_in in
  let hint := commune_maire_of (doc_pages_cont fp_pdf_in fp_txt_in) in
  let a1 :=
    set_ville (determine_commune (adr_ville x) hint)
      (adresse_of_fields (adresse_brute adr0) x) in
  existsb nonempty (load_pages_text fp_txt_in) = true →
  doc_pages_body fp_pdf_in fp_txt_in = pre ++ b :: post →
  Forall (λ p, nonempty p = true → no_adresse_on p) pre →
  nonempty b = true →
  get_adr_doc b = adr0 :: zones →
  zone_adresses adr0 = before ++ x :: after →
  Forall (λ y, ∃ l a,
            resolve_adresse fn_pdf hint
              (adresse_of_fields (adresse_brute adr0) y)
            = (l, Returned a)) before →
  get_codeinsee (ville a1) (cpostal a1) = Raised e →
  ∃ log, parse_arrete fp_pdf_in fp_txt_in
         = (log ++ codeinsee_failure_log fn_pdf a1 e, Raised e).
Proof.
  intros fn_pdf hint a1 Htext Hbodies Hpre Hb Hzones Hsplit Hbefore Hget.
  pose proof (resolve_adresse_codeinsee_raises fn_pdf hint
                (adresse_of_fields (adresse_brute adr0) x) e Hget) as Hx.
  destruct (mapM_Raised_suffix (resolve_adresse fn_pdf hint)
              (adresse_of_fields (adresse_brute adr0) <$> before)
              (adresse_of_fields (adresse_brute adr0) x)
              (adresse_of_fields (adresse_brute adr0) <$> after)
              (codeinsee_failure_log fn_pdf a1 e) e)
    as [lm Hm]; [by apply Forall_fmap|exact Hx|].
  assert (∃ lb, extract_adresses_commune fn_pdf b hint
                = (lb ++ codeinsee_failure_log fn_pdf a1 e, Raised e))
    as [lb Hex].
  { unfold extract_adresses_commune. rewrite Hzones, Hsplit, fmap_app.
    rewrite fmap_cons.
    rewrite bool_decide_eq_false_2 by (by destruct before).
    simpl.
    change (list_fmap adr_fields Adresse ?f after) with (f <$> after).
    change (list_fmap adr_fields Adresse ?f before) with (f <$> before).
    rewrite Hm. by exists lm. }
  destruct (run_fails_suffix fn_pdf fp_pdf_in hint pre b post
              (init_state (scalar_fields (doc_pages_cont fp_pdf_in fp_txt_in)))
              (lb ++ codeinsee_failure_log fn_pdf a1 e) e eq_refl Hpre Hb Hex)
    as [l Hrun].
  rewrite <- Hbodies in Hrun.
  destruct (parse_arrete_of_run fp_pdf_in fp_txt_in _ (Raised e) Htext Hrun)
    as [l0 Hret].
  rewrite Hret. exists (l0 ++ l ++ lb). by rewrite !(assoc_L (++)).
Qed.

End MoreProperties.

(** * Properties of [process_files] *)

Section Identifiers.

Lemma lsb_digits_bound fuel n : Forall (λ d, d < 10)%nat (lsb_digits fuel n).
Proof.
  revert n. induction fuel as [|fuel IH]; intros n; cbn [lsb_digits];
    constructor.
  - apply Nat.mod_upper_bound. lia.
  - destruct (n <? 10)%nat; [constructor|apply IH].
Qed.

(** With enough fuel the digits are those of [n]. *)
Lemma lsb_digits_val fuel n :
  (n < fuel)%nat →
  foldr (λ d acc, d + 10 * acc)%nat 0%nat (lsb_digits fuel n) = n.
Proof.
  revert n. induction fuel as [|fuel IH]; intros n Hn; [lia|].
  cbn [lsb_digits foldr].
  destruct (n <? 10)%nat eqn:Hlt.
  - apply Nat.ltb_lt in Hlt. cbn [foldr]. rewrite Nat.mod_small by done. lia.
  - apply Nat.ltb_ge in Hlt. rewrite IH.
    + pose proof (Nat.div_mod_eq n 10). lia.
    + pose proof (Nat.div_lt n 10). lia.
Qed.

Lemma digit_val_char d : (d < 10)%nat → digit_val (digit_char d) = d.
Proof.
  intros Hd. unfold digit_val, digit_char.
  rewrite nat_ascii_embedding by lia. lia.
Qed.

Lemma msb_val_snoc cs c :
  msb_val (cs ++ [c]) = (msb_val cs * 10 + digit_val c)%nat.
Proof. unfold msb_val. by rewrite fold_left_app. Qed.

Lemma msb_val_digits ds :
  Forall (λ d, d < 10)%nat ds →
  msb_val (digit_char <$> reverse ds)
  = foldr (λ d acc, d + 10 * acc)%nat 0%nat ds.
Proof.
  induction 1 as [|d ds Hd _ IH]; [done|].
  rewrite reverse_cons, fmap_app.
  change (digit_char <$> [d]) with [digit_char d].
  rewrite msb_val_snoc, IH. cbn [foldr].
  rewrite digit_val_char by done. lia.
Qed.

Lemma msb_val_zeros k cs :
  msb_val (replicate k "0"%char ++ cs) = msb_val cs.
Proof.
  unfold msb_val. rewrite fold_left_app.
  assert (fold_left (λ acc c, acc * 10 + digit_val c)%nat
            (replicate k "0"%char) 0%nat = 0%nat) as ->; [|done].
  induction k as [|k IH]; [done|]. simpl. exact IH.
Qed.

(** X10: the index of a document can be read back from its identifier,
    so that two documents of a batch never get the same identifier, also
    past the 10000th, where the identifier gets longer than seven
    characters. *)
Theorem idu_of_index i :
  idu_index (idu_of i) = i ∧ ∀ j, idu_of i = idu_of j → i = j.
Proof.
  assert (∀ k, idu_index (idu_of k) = k) as Hindex.
  { intros k. unfold idu_index, idu_of.
    assert (∀ s, drop 3 (String.list_ascii_of_string ("id_" +:+ s))
                 = String.list_ascii_of_string s) as -> by done.
    unfold format_04.
    rewrite String.list_ascii_of_string_of_list_ascii, msb_val_zeros.
    rewrite msb_val_digits by apply lsb_digits_bound.
    apply lsb_digits_val. lia. }
  split; [apply Hindex|]. intros j Hij.
  by rewrite <- (Hindex i), Hij, Hindex.
Qed.

End Identifiers.

Section Batch.
Context `{Collaborators} `{FileSystem}.

Lemma enumerate_app {A} (n : nat) (l1 l2 : list A) :
  enumerate n (l1 ++ l2)
  = enumerate n l1 ++ enumerate (n + length l1) l2.
Proof.
  revert n. induction l1 as [|x l1 IH]; intros n; simpl.
  - by rewrite Nat.add_0_r.
  - rewrite IH. do 3 f_equal. lia.
Qed.

Lemma process_file_parsed datemaj dir t i fp doc :
  parsed_as dir fp doc →
  ∃ l, process_file datemaj dir t (i, fp)
       = (l, Returned (add_rows (idu_of i) datemaj doc t)).
Proof.
  intros [Hfile [l Hparse]]. unfold process_file. simpl.
  rewrite Hfile. simpl. rewrite Hparse. simpl. by eexists.
Qed.

Lemma process_file_Returned datemaj dir t i fp l t' :
  process_file datemaj dir t (i, fp) = (l, Returned t') →
  ∃ doc, parsed_as dir fp doc ∧ t' = add_rows (idu_of i) datemaj doc t.
Proof.
  unfold process_file. simpl. intros Hrun.
  apply bind_Returned in Hrun as (l1 & fp_txt & l2 & Hfile & Hrun & _).
  apply bind_Returned in Hrun as (l3 & doc & l4 & Hparse & Hret & _).
  injection Hret as _ <-.
  destruct (is_file (fp_ntxt_of dir fp)) eqn:Hf; [|discriminate].
  injection Hfile as _ <-. exists doc. split; [|done].
  split; [done|]. by exists l3.
Qed.

(** The documents before the one that fails are processed. *)
Lemma process_prefix datemaj dir pre docs n t :
  Forall2 (parsed_as dir) pre docs →
  ∃ l t', foldM (process_file datemaj dir) t (enumerate n pre)
          = (l, Returned t').
Proof.
  intros Hpre. revert n t.
  induction Hpre as [|fp doc pre docs Hfp _ IH]; intros n t.
  - by exists [], t.
  - cbn [enumerate foldM].
    destruct (process_file_parsed datemaj dir t n fp doc Hfp) as [l1 ->].
    destruct (IH (S n) (add_rows (idu_of n) datemaj doc t))
      as (l2 & t' & Hl2).
    cbn [bind]. rewrite Hl2. by eexists _, _.
Qed.

Lemma process_stops datemaj dir pre docs fp post lx e :
  Forall2 (parsed_as dir) pre docs →
  (∀ t i, process_file datemaj dir t (i, fp) = (lx, Raised e)) →
  ∃ l, process_files_rows datemaj dir (pre ++ fp :: post)
       = (l ++ lx, Raised e).
Proof.
  intros Hpre Hfp. unfold process_files_rows.
  rewrite enumerate_app, foldM_app.
  destruct (process_prefix datemaj dir pre docs 0
              {| rows_adresse := []; rows_arrete := []; rows_notifie := [];
                 rows_parcelle := [] |} Hpre) as (l1 & t1 & ->).
  cbn [bind enumerate foldM]. rewrite Hfp. cbn [bind]. by exists l1.
Qed.

(** X11: [process_files] stops at the first PDF file that has no native
    text file: it raises ValueError there, and no row of the documents
    already processed is returned. *)
Theorem process_files_missing_txt datemaj in_dir_ntxt pre docs fp_pdf post :
  Forall2 (parsed_as in_dir_ntxt) pre docs →
  is_file (fp_ntxt_of in_dir_ntxt fp_pdf) = false →
  ∃ log, process_files_rows datemaj in_dir_ntxt (pre ++ fp_pdf :: post)
         = (log, Raised (OtherError "ValueError")).
Proof.
  intros Hpre Hfile.
  destruct (process_stops datemaj in_dir_ntxt pre docs fp_pdf post []
              (OtherError "ValueError") Hpre) as [l Hl].
  - intros t i. unfold process_file. simpl. by rewrite Hfile.
  - by eexists.
Qed.

(** X12: an exception that leaves [parse_arrete] for one document leaves
    [process_files] as it is: the batch stops at that document, with what
    [parse_arrete] logged as the last thing logged, and no row of the
    documents already processed is returned. *)
Theorem process_files_parse_failure
    datemaj in_dir_ntxt pre docs fp_pdf post lx e :
  Forall2 (parsed_as in_dir_ntxt) pre docs →
  is_file (fp_ntxt_of in_dir_ntxt fp_pdf) = true →
  parse_arrete fp_pdf (fp_ntxt_of in_dir_ntxt fp_pdf) = (lx, Raised e) →
  ∃ log, process_files_rows datemaj in_dir_ntxt (pre ++ fp_pdf :: post)
         = (log ++ lx, Raised e).
Proof.
  intros Hpre Hfile Hparse.
  apply (process_stops datemaj in_dir_ntxt pre docs fp_pdf post lx e Hpre).
  intros t i. unfold process_file. simpl. rewrite Hfile. simpl.
  by rewrite Hparse.
Qed.

Lemma process_loop_Returned datemaj dir fps n t l t' :
  foldM (process_file datemaj dir) t (enumerate n fps) = (l, Returned t') →
  ∃ docs,
    Forall2 (parsed_as dir) fps docs
    ∧ rows_adresse t'
      = rows_adresse t
        ++ rows_of (λ idu x, {| idu := idu; row := x; datemaj := datemaj |})
             adresses (enumerate n docs)
    ∧ rows_arrete t'
      = rows_arrete t
        ++ rows_of (λ idu, tag_arrete idu datemaj) arretes (enumerate n docs)
    ∧ rows_notifie t'
      = rows_notifie t
        ++ rows_of (λ idu x, {| idu := idu; row := x; datemaj := datemaj |})
             notifies (enumerate n docs)
    ∧ rows_parcelle t'
      = rows_parcelle t
        ++ rows_of (λ idu x, {| idu := idu; row := x; datemaj := datemaj |})
             parcelles (enumerate n docs).
Proof.
  revert n t l. induction fps as [|fp fps IH]; intros n t l Hrun.
  - injection Hrun as _ <-. exists []. unfold rows_of. simpl.
    rewrite !(right_id_L [] (++)). by repeat split.
  - cbn [enumerate] in Hrun.
    apply foldM_cons_Returned in Hrun as (l1 & t1 & l2 & Hstep & Hrun & _).
    apply process_file_Returned in Hstep as (doc & Hdoc & ->).
    apply IH in Hrun as (docs & Hdocs & -> & -> & -> & ->).
    exists (doc :: docs). split; [by constructor|].
    unfold rows_of. cbn [enumerate fmap list_fmap concat add_rows
      rows_adresse rows_arrete rows_notifie rows_parcelle fst snd].
    by rewrite !(assoc_L (++)).
Qed.

(** X13: when [process_files] gets to the end of the files, every file
    had a native text file and a result of [parse_arrete], and each of the
    four tables holds the rows of the corresponding list of these results,
    file after file in the order of the files and, for one file, in the
    order of its list, each row tagged with the identifier made from the
    rank of its file (counted from 0) and with the date of the run. *)
Theorem process_files_rows_returned datemaj in_dir_ntxt fps_pdf log t :
  process_files_rows datemaj in_dir_ntxt fps_pdf = (log, Returned t) →
  ∃ docs,
    Forall2 (parsed_as in_dir_ntxt) fps_pdf docs
    ∧ rows_adresse t
      = rows_of (λ idu x, {| idu := idu; row := x; datemaj := datemaj |})
          adresses (enumerate 0 docs)
    ∧ rows_arrete t
      = rows_of (λ idu, tag_arrete idu datemaj) arretes (enumerate 0 docs)
    ∧ rows_notifie t
      = rows_of (λ idu x, {| idu := idu; row := x; datemaj := datemaj |})
          notifies (enumerate 0 docs)
    ∧ rows_parcelle t
      = rows_of (λ idu x, {| idu := idu; row := x; datemaj := datemaj |})
          parcelles (enumerate 0 docs).
Proof.
  intros Hrun. unfold process_files_rows in Hrun.
  by apply process_loop_Returned in Hrun.
Qed.

Lemma tag_arrete_lookup idu datemaj (a : gmap string pystr) :
  dom a ⊆ arrete_keys →
  tag_arrete idu datemaj a !! "idu" = Some (Some idu)
  ∧ tag_arrete idu datemaj a !! "datemaj" = Some (Some datemaj)
  ∧ ∀ k, k ≠ "idu" → k ≠ "datemaj" → tag_arrete idu datemaj a !! k = a !! k.
Proof.
  intros Hdom. unfold tag_arrete. split; [|split].
  - rewrite lookup_insert_ne by done. rewrite lookup_union_r.
    + by rewrite lookup_singleton_eq.
    + apply not_elem_of_dom. intros Hin. apply Hdom in Hin.
      unfold arrete_keys, page_keys in Hin. set_solver.
  - by rewrite lookup_insert_eq.
  - intros k Hidu Hdate. rewrite lookup_insert_ne by done.
    rewrite lookup_union_l; [done|]. by rewrite lookup_singleton_ne.
Qed.

Lemma order_rows_lookup datemaj dir fps docs :
  Forall2 (parsed_as dir) fps docs →
  ∀ n : nat,
    length (rows_of (λ idu, tag_arrete idu datemaj) arretes
              (enumerate n docs)) = length fps
    ∧ ∀ (i : nat) r,
        rows_of (λ idu, tag_arrete idu datemaj) arretes (enumerate n docs)
          !! i = Some r →
        ∃ fp doc a,
          fps !! i = Some fp ∧ parsed_as dir fp doc ∧ arretes doc = [a]
          ∧ dom a ⊆ arrete_keys
          ∧ r = tag_arrete (idu_of (n + i)) datemaj a.
Proof.
  induction 1 as [|fp doc fps docs Hfp _ IH]; intros n.
  { split; [done|]. by intros i r Hr. }
  destruct Hfp as [Hfile [l Hparse]].
  destruct (order_record_keys _ _ _ _ Hparse) as (a & Ha & Hdom).
  destruct (IH (S n)) as [Hlen Hrows].
  unfold rows_of in *.
  cbn [enumerate fmap list_fmap concat fst snd]. rewrite Ha.
  cbn [fmap list_fmap app]. split; [simpl; by rewrite Hlen|].
  intros [|i] r Hr.
  - injection Hr as <-. exists fp, doc, a. rewrite Nat.add_0_r.
    repeat split; try done. by exists l.
  - destruct (Hrows i r Hr) as (fp' & doc' & a' & ? & ? & ? & ? & ->).
    exists fp', doc', a'. do 4 (split; [done|]).
    do 2 f_equal. lia.
Qed.

(** X14: when [process_files] gets to the end of the files, the table of
    orders has one row per file, in the order of the files. Row number
    [i] is the order record of the file of rank [i] with two more keys:
    [idu], which holds the identifier made from [i], and [datemaj], which
    holds the date of the run; no key of the order record is replaced by
    the tags, and none hides them. *)
Theorem order_rows_one_per_file datemaj in_dir_ntxt fps_pdf log t :
  process_files_rows datemaj in_dir_ntxt fps_pdf = (log, Returned t) →
  length (rows_arrete t) = length fps_pdf
  ∧ ∀ (i : nat) r,
      rows_arrete t !! i = Some r →
      ∃ fp_pdf doc a,
        fps_pdf !! i = Some fp_pdf
        ∧ parsed_as in_dir_ntxt fp_pdf doc
        ∧ arretes doc = [a]
        ∧ r !! "idu" = Some (Some (idu_of i))
        ∧ r !! "datemaj" = Some (Some datemaj)
        ∧ ∀ k, k ≠ "idu" → k ≠ "datemaj" → r !! k = a !! k.
Proof.
  intros Hrun. unfold process_files_rows in Hrun.
  apply process_loop_Returned in Hrun as (docs & Hdocs & _ & -> & _).
  destruct (order_rows_lookup datemaj in_dir_ntxt fps_pdf docs Hdocs 0)
    as [Hlen Hrows].
  cbn [rows_arrete app]. split; [done|]. intros i r Hr.
  destruct (Hrows i r Hr) as (fp & doc & a & Hfp & Hdoc & Ha & Hdom & ->).
  exists fp, doc, a. do 3 (split; [done|]).
  by apply tag_arrete_lookup.
Qed.

End Batch.

(** * The other properties on documents *)

Section MoreDocuments.
Import Toy ToyFiles.

Example idu_of_examples :
  idu_of 0 = "id_0000" ∧ idu_of 42 = "id_0042" ∧ idu_of 9999 = "id_9999"
  ∧ idu_of 12345 = "id_12345".
Proof. repeat split; vm_compute; reflexivity. Qed.

Example run_vide_zones :
  process_files_rows "03/11/2026" "txt" ["pdf/vide.pdf"; "pdf/zones.pdf"]
  = (log_vide_zones, Returned tables_vide_zones).
Proof. vm_compute. reflexivity. Qed.

Example run_entete :
  @parse_arrete spans_only "pdf/a.pdf" "txt/entete.txt"
  = ([], Returned doc_entete).
Proof. vm_compute. reflexivity. Qed.

(** The order record of "txt/arrete.txt" has no INSEE code, because the
    first page with text, "entete", gives no address; the notified-parties
    record of the same document has the code of the address of page 3. *)
Lemma arrete_codeinsee_of_first_text_page_witness :
  ∃ a, arretes doc_marseille = [a]
       ∧ (no_adresse_on "entete" → a !! "codeinsee" = Some None)
       ∧ ∀ lb a0 rest,
           extract_adresses_commune (path_name "pdf/a.pdf") "entete"
             (commune_maire_of (doc_pages_cont "pdf/a.pdf" "txt/arrete.txt"))
           = (lb, Returned (a0 :: rest)) →
           a !! "codeinsee" = Some (codeinsee a0).
Proof.
  apply (arrete_codeinsee_of_first_text_page (H := toy)
           "pdf/a.pdf" "txt/arrete.txt"
           (LogWarning (MsgAccuse "txt/arrete.txt" [1] 4) :: log_marseille)
           doc_marseille [""] "entete" ["adresse"; "suite"]).
  - vm_compute. reflexivity.
  - vm_compute. reflexivity.
  - vm_compute. reflexivity.
  - repeat constructor.
  - reflexivity.
Defined.

Lemma order_record_shape_witness :
  ∃ a, arretes doc_entete = [a]
       ∧ dom a ⊆ arrete_keys
       ∧ (existsb nonempty (@load_pages_text spans_only "txt/entete.txt")
          = false
          ∨ Exists (λ b, nonempty b = true)
              (@doc_pages_body spans_only "pdf/a.pdf" "txt/entete.txt")
          ∨ @scalar_fields spans_only
              (@doc_pages_cont spans_only "pdf/a.pdf" "txt/entete.txt") = ∅ →
          a !! "pdf" = Some (Some (@path_name spans_only "pdf/a.pdf"))
          ∧ a !! "url" = Some (Some "pdf/a.pdf"))
       ∧ (existsb nonempty (@load_pages_text spans_only "txt/entete.txt")
          = true →
          Forall (λ b, nonempty b = false)
            (@doc_pages_body spans_only "pdf/a.pdf" "txt/entete.txt") →
          @scalar_fields spans_only
            (@doc_pages_cont spans_only "pdf/a.pdf" "txt/entete.txt") ≠ ∅ →
          a = @scalar_fields spans_only
                (@doc_pages_cont spans_only "pdf/a.pdf" "txt/entete.txt")
          ∧ a !! "pdf" = None ∧ a !! "url" = None).
Proof.
  apply (order_record_shape (H := spans_only)
           "pdf/a.pdf" "txt/entete.txt" []).
  vm_compute. reflexivity.
Defined.

Lemma parcelles_distinct_and_sourced_witness :
  NoDup (ref_cad <$> parcelles doc_marseille)
  ∧ Forall (λ p, parcelle_source (path_name "pdf/a.pdf")
                   (doc_pages_body "pdf/a.pdf" "txt/arrete.txt")
                   (head (adresses doc_marseille)) (ref_cad p))
      (parcelles doc_marseille).
Proof.
  apply (parcelles_distinct_and_sourced (H := toy)
           "pdf/a.pdf" "txt/arrete.txt"
           (LogWarning (MsgAccuse "txt/arrete.txt" [1] 4) :: log_marseille)).
  - vm_compute. reflexivity.
  - vm_compute. reflexivity.
Defined.

Lemma notifie_ids_are_detections_witness :
  ∃ n, notifies doc_marseille = [n]
       ∧ Forall (λ '(get, id),
           (∀ x, id n = Some x →
                 x ∈ detections get
                       (doc_pages_body "pdf/a.pdf" "txt/arrete.txt"))
           ∧ (detections get (doc_pages_body "pdf/a.pdf" "txt/arrete.txt")
              ≠ [] →
              is_Some (id n))
           ∧ ∀ x, detections get (doc_pages_body "pdf/a.pdf" "txt/arrete.txt")
                  ≠ [] →
                  Forall (λ y, y = x)
                    (detections get
                       (doc_pages_body "pdf/a.pdf" "txt/arrete.txt")) →
                  id n = Some x)
           [ (get_proprio, id_proprio); (get_syndic, id_syndic);
             (get_gest, id_gest) ].
Proof.
  apply (notifie_ids_are_detections (H := toy)
           "pdf/a.pdf" "txt/arrete.txt"
           (LogWarning (MsgAccuse "txt/arrete.txt" [1] 4) :: log_marseille)).
  - vm_compute. reflexivity.
  - vm_compute. reflexivity.
Defined.

(** The owner is detected twice, with one normalized string. *)
Example detections_marseille :
  detections get_proprio (doc_pages_body "pdf/a.pdf" "txt/arrete.txt")
  = ["M. Dupont"; "M. Dupont"].
Proof. vm_compute. reflexivity. Qed.

Lemma extract_adresses_commune_resolved_witness :
  Forall2 (resolved_from (Some "Marseille") (adresse_brute zone_marseille))
    (zone_adresses zone_marseille)
    [adresse12 (Some "Marseille") (Some "13201") "12 rue X  Marseille";
     adresse14].
Proof.
  apply (extract_adresses_commune_resolved (H := toy)
           "a.pdf" "adresse" (Some "Marseille") zone_marseille
           [ {| adresse_brute := "3 bis cours Z 13400 Aubagne";
                zone_adresses := [aubagne3] |} ]
           log_marseille).
  - reflexivity.
  - vm_compute. reflexivity.
Defined.

Lemma adresses_resolved_with_first_commune_witness :
  adresses doc_marseille = []
  ∨ ∃ b adr0 zones,
      b ∈ doc_pages_body "pdf/a.pdf" "txt/arrete.txt"
      ∧ nonempty b = true
      ∧ get_adr_doc b = adr0 :: zones
      ∧ Forall2
          (resolved_from
             (normalize_string
                <$> first_span_txt "adr_ville"
                      (doc_pages_cont "pdf/a.pdf" "txt/arrete.txt"))
             (adresse_brute adr0))
          (zone_adresses adr0) (adresses doc_marseille).
Proof.
  apply (adresses_resolved_with_first_commune (H := toy)
           "pdf/a.pdf" "txt/arrete.txt"
           (LogWarning (MsgAccuse "txt/arrete.txt" [1] 4) :: log_marseille)).
  - vm_compute. reflexivity.
  - vm_compute. reflexivity.
Defined.

Lemma codeinsee_failure_aborts_witness :
  ∃ log,
    parse_arrete "pdf/a.pdf" "txt/lyon.txt"
    = (log
       ++ codeinsee_failure_log (path_name "pdf/a.pdf")
            (set_ville
               (determine_commune (adr_ville lyon5)
                  (commune_maire_of
                     (doc_pages_cont "pdf/a.pdf" "txt/lyon.txt")))
               (adresse_of_fields "5 quai Y 69001 Lyon" lyon5))
            AssertionError,
       Raised AssertionError).
Proof.
  apply (codeinsee_failure_aborts (H := toy)
           "pdf/a.pdf" "txt/lyon.txt" [] "hors metropole" []
           {| adresse_brute := "5 quai Y 69001 Lyon";
              zone_adresses := [lyon5] |} [] [] lyon5 [] AssertionError).
  - vm_compute. reflexivity.
  - vm_compute. reflexivity.
  - constructor.
  - reflexivity.
  - vm_compute. reflexivity.
  - reflexivity.
  - constructor.
  - vm_compute. reflexivity.
Defined.

(** The second file of the batch has no native text file. *)
Lemma process_files_missing_txt_witness :
  ∃ log,
    process_files_rows "03/11/2026" "txt"
      (["pdf/vide.pdf"] ++ "pdf/absent.pdf" :: ["pdf/zones.pdf"])
    = (log, Raised (OtherError "ValueError")).
Proof.
  apply (process_files_missing_txt (H := toy) (H0 := files)
           "03/11/2026" "txt" ["pdf/vide.pdf"]
           [ {| adresses := [];
                arretes :=
                  [ {[ "pdf" := Some "vide.pdf";
                       "url" := Some "pdf/vide.pdf" ]} ];
                notifies := []; parcelles := [] |} ]).
  - repeat constructor. eexists. vm_compute. reflexivity.
  - vm_compute. reflexivity.
Defined.

(** [get_codeinsee] raises for the second file of the batch. *)
Lemma process_files_parse_failure_witness :
  ∃ log,
    process_files_rows "03/11/2026" "txt"
      (["pdf/vide.pdf"] ++ "pdf/lyon.pdf" :: ["pdf/zones.pdf"])
    = (log
       ++ [ Print (MsgGetCodeinsee "lyon.pdf" (Some "Lyon") (Some "69001"));
            Print
              (MsgAdresse
                 {| ad_brute := "5 quai Y 69001 Lyon";
                    num := Some "5"; ind := None; voie := Some "quai Y";
                    compl := None; cpostal := Some "69001";
                    ville := Some "Lyon"; adresse := None;
                    codeinsee := None |}) ],
       Raised AssertionError).
Proof.
  apply (process_files_parse_failure (H := toy) (H0 := files)
           "03/11/2026" "txt" ["pdf/vide.pdf"]
           [ {| adresses := [];
                arretes :=
                  [ {[ "pdf" := Some "vide.pdf";
                       "url" := Some "pdf/vide.pdf" ]} ];
                notifies := []; parcelles := [] |} ]).
  - repeat constructor. eexists. vm_compute. reflexivity.
  - vm_compute. reflexivity.
  - vm_compute. reflexivity.
Defined.

Lemma process_files_rows_returned_witness :
  ∃ docs,
    Forall2 (parsed_as "txt") ["pdf/vide.pdf"; "pdf/zones.pdf"] docs
    ∧ rows_adresse tables_vide_zones
      = rows_of (λ idu x, {| idu := idu; row := x; datemaj := "03/11/2026" |})
          adresses (enumerate 0 docs)
    ∧ rows_arrete tables_vide_zones
      = rows_of (λ idu, tag_arrete idu "03/11/2026") arretes
          (enumerate 0 docs)
    ∧ rows_notifie tables_vide_zones
      = rows_of (λ idu x, {| idu := idu; row := x; datemaj := "03/11/2026" |})
          notifies (enumerate 0 docs)
    ∧ rows_parcelle tables_vide_zones
      = rows_of (λ idu x, {| idu := idu; row := x; datemaj := "03/11/2026" |})
          parcelles (enumerate 0 docs).
Proof.
  apply (process_files_rows_returned (H := toy) (H0 := files)
           "03/11/2026" "txt" ["pdf/vide.pdf"; "pdf/zones.pdf"]
           log_vide_zones).
  vm_compute. reflexivity.
Defined.

Lemma order_rows_one_per_file_witness :
  length (rows_arrete tables_vide_zones) = 2
  ∧ ∀ (i : nat) r,
      rows_arrete tables_vide_zones !! i = Some r →
      ∃ fp_pdf doc a,
        ["pdf/vide.pdf"; "pdf/zones.pdf"] !! i = Some fp_pdf
        ∧ parsed_as "txt" fp_pdf doc
        ∧ arretes doc = [a]
        ∧ r !! "idu" = Some (Some (idu_of i))
        ∧ r !! "datemaj" = Some (Some "03/11/2026")
        ∧ ∀ k, k ≠ "idu" → k ≠ "datemaj" → r !! k = a !! k.
Proof.
  apply (order_rows_one_per_file (H := toy) (H0 := files)
           "03/11/2026" "txt" ["pdf/vide.pdf"; "pdf/zones.pdf"]
           log_vide_zones).
  vm_compute. reflexivity.
Defined.

End MoreDocuments.
